(** * pymegablast: a shallow embedding of [pymegablast.py]

    The script prepares a FASTA file (optionally cutting every sequence
    into overlapping windows), runs the external [megablast] program on
    it, counts the hits reported per query identifier and writes a
    report.  Python values are modelled as follows:

    - [str] is [string]; [int] is [Z] (Python integers are unbounded);
    - a Biopython [SeqRecord] is the record [SeqRecord.t];
    - [collections.Counter] is a [gmap string nat] read with default 0;
    - the file system, standard output and the calls made to the
      collaborators (Biopython's [SeqIO], [shutil], the subprocess) are
      fields of an explicit [world] threaded through a state-and-exception
      monad. *)

From Stdlib Require Import ZArith Ascii String.
From stdpp Require Import base numbers list strings gmap fin_maps pretty.

Local Open Scope Z_scope.

(** ** Python strings *)

Definition tab : ascii := Ascii.ascii_of_nat 9.
Definition newline : ascii := Ascii.ascii_of_nat 10.
Definition hash : ascii := Ascii.ascii_of_nat 35.

(** [str(x)] and ["{}".format(x)] for an integer [x]. *)
Definition str (x : Z) : string := pretty x.

(** [s.startswith(c)] for a one-character prefix [c]. *)
Definition startswith (c : ascii) (s : string) : bool :=
  match s with
  | String a _ => bool_decide (a = c)
  | EmptyString => false
  end.

(** [s.endswith(c)] for a one-character suffix [c]. *)
Fixpoint endswith (c : ascii) (s : string) : bool :=
  match s with
  | EmptyString => false
  | String a EmptyString => bool_decide (a = c)
  | String _ rest => endswith c rest
  end.

(** [s.split(sep)] for a one-character separator: the fields between the
    occurrences of [sep]; a string with [n] separators has [n + 1] fields. *)
Fixpoint split (sep : ascii) (s : string) : list string :=
  match s with
  | EmptyString => [EmptyString]
  | String a rest =>
      if bool_decide (a = sep) then EmptyString :: split sep rest
      else match split sep rest with
           | field :: fields => String a field :: fields
           | [] => [String a EmptyString]
           end
  end.

(** [sep.join(fields)]. *)
Fixpoint join (sep : string) (fields : list string) : string :=
  match fields with
  | [] => EmptyString
  | [field] => field
  | field :: rest => field +:+ sep +:+ join sep rest
  end.

(** Normalisation of one bound of a slice [s[i:j]] over a sequence of
    length [n]: a negative bound counts from the end, and the result is
    clamped to [0 .. n]. *)
Definition slice_bound (n : nat) (i : Z) : nat :=
  if i <? 0 then Z.to_nat (Z.max 0 (i + Z.of_nat n))
  else Z.to_nat (Z.min i (Z.of_nat n)).

(** [s[i:j]] *)
Definition getslice (s : string) (i j : Z) : string :=
  let a := slice_bound (String.length s) i in
  let b := slice_bound (String.length s) j in
  String.substring a (b - a)%nat s.

(** [xrange(a, b)]: the integers from [a] up to [b - 1], none when
    [b <= a].  The bounds are taken to fit a machine integer, as they do
    for every window length that is not negative. *)
Definition xrange (a b : Z) : list Z := seqZ a (b - a).

(** [os.path.join(a, b)] on a POSIX system. *)
Definition path_join (a b : string) : string :=
  if startswith "/"%char b then b
  else if bool_decide (a = EmptyString) || endswith "/"%char a then a +:+ b
  else a +:+ "/" +:+ b.

(** ** Sequence records *)

Module SeqRecord.

(** The attributes of [Bio.SeqRecord.SeqRecord] that the FASTA format
    carries; [seq] is the residue string. *)
Record t := Make {
  id : string;
  name : string;
  description : string;
  seq : string
}.

(** [len(record)] *)
Definition len (r : t) : Z := Z.of_nat (String.length (seq r)).

(** [record[i:j]]: a new record over the sliced residues that keeps
    the identifier, the name and the description. *)
Definition slice (r : t) (i j : Z) : t :=
  Make (id r) (name r) (description r) (getslice (seq r) i j).

Definition set_id (r : t) (x : string) : t :=
  Make x (name r) (description r) (seq r).

Definition set_description (r : t) (x : string) : t :=
  Make (id r) (name r) x (seq r).

End SeqRecord.

(** ** The Sequence Windower: the loops of [split_fasta_sequences] *)

(** One iteration of the inner loop, on the counter [nb] and the list
    [sequences] built so far. *)
Definition window_iter (seq : SeqRecord.t) (window_length : Z)
    (st : Z * list SeqRecord.t) (i : Z) : Z * list SeqRecord.t :=
  let nb := fst st + 1 in
  let last := SeqRecord.slice seq i (i + window_length) in
  let last := SeqRecord.set_id last (SeqRecord.id last +:+ "_" +:+ str nb) in
  let last :=
    SeqRecord.set_description last
      (SeqRecord.description last +:+ ", window " +:+ str nb) in
  (nb, snd st ++ [last]).

(** One iteration of the outer loop. *)
Definition split_iter (window_length : Z) (sequences : list SeqRecord.t)
    (seq : SeqRecord.t) : list SeqRecord.t :=
  if SeqRecord.len seq <=? window_length then sequences ++ [seq]
  else
    snd (foldl (window_iter seq window_length) (0, sequences)
           (xrange 0 (SeqRecord.len seq - window_length + 1))).

(** The list [sequences] handed to [SeqIO.write]. *)
Definition split_sequences (window_length : Z) (records : list SeqRecord.t)
    : list SeqRecord.t :=
  foldl (split_iter window_length) [] records.

(** ** The Result Aggregator: [parse_results] *)

Inductive exn :=
  | ProgramError (message : string)
  | KeyboardInterrupt
  | IndexError
  | IOError
  | OSError
  | CalledProcessError
  | ShutilError.

Inductive result (A : Type) :=
  | Return (a : A)
  | Raise (e : exn).
Arguments Return {A} a.
Arguments Raise {A} e.

(** [collections.Counter]: a dictionary of counts; a missing key reads 0. *)
Abbreviation Counter := (gmap string nat).

Definition count_of (counter : Counter) (key : string) : nat :=
  default 0%nat (counter !! key).

(** [Counter(iterable)]: every element adds one to its own count. *)
Definition Counter_of (elems : list string) : Counter :=
  foldl (λ counter elem, <[elem := S (count_of counter elem)]> counter) ∅ elems.

(** The loop [while results[0].startswith("#"): del results[0]].  Reading
    [results[0]] of an empty list raises [IndexError]. *)
Fixpoint strip_comments (results : list string) : result (list string) :=
  match results with
  | [] => Raise IndexError
  | line :: rest =>
      if startswith hash line then strip_comments rest else Return results
  end.

(** [i.split("\t")[0]] *)
Definition first_field (line : string) : string :=
  match split tab line with
  | field :: _ => field
  | [] => EmptyString
  end.

Definition parse_results (results : list string) : result Counter :=
  match strip_comments results with
  | Raise e => Raise e
  | Return results => Return (Counter_of (first_field <$> results))
  end.

(** ** The world the script runs in *)

(** The calls made to the collaborators, in the order they are made. *)
Inductive call :=
  | SeqIO_parse_call (path : string)
  | SeqIO_write_call (records : list SeqRecord.t) (path : string)
  | copyfile_call (src dst : string)
  | check_output_call (argv : list string).

(** A path is the name of a file: two different strings are two
    different files (no links, no normalisation).  [locked] holds the
    paths that cannot be created or opened for writing: no permission, or
    a directory that is missing when the path is opened.  The world keeps
    no relation between a path and its directory, so a file of a missing
    directory is writable only if the world says so by leaving it out of
    [locked]; the examples open a file only in a directory that exists or
    that the script has made. *)
Record world := World {
  files : gmap string string;
  dirs : gset string;
  locked : gset string;
  stdout : list string;
  stderr : list string;
  calls : list call
}.

Definition set_files (f : gmap string string → gmap string string)
    (w : world) : world :=
  World (f (files w)) (dirs w) (locked w) (stdout w) (stderr w) (calls w).

Definition set_dirs (f : gset string → gset string) (w : world) : world :=
  World (files w) (f (dirs w)) (locked w) (stdout w) (stderr w) (calls w).

Definition add_stdout (line : string) (w : world) : world :=
  World (files w) (dirs w) (locked w) (stdout w ++ [line]) (stderr w) (calls w).

Definition add_stderr (line : string) (w : world) : world :=
  World (files w) (dirs w) (locked w) (stdout w) (stderr w ++ [line]) (calls w).

Definition add_call (c : call) (w : world) : world :=
  World (files w) (dirs w) (locked w) (stdout w) (stderr w) (calls w ++ [c]).

(** What running the external program does. *)
Inductive tool_outcome :=
  | NotFound
  | NonZeroExit
  | Interrupted
  | Output (text : string).

(** The collaborators the script does not define: Biopython's FASTA
    reader and writer, and the installed [megablast] program, which reads
    its argument vector and the files and prints to its standard output. *)
Class Environment := {
  fasta_parse : string → list SeqRecord.t;
  fasta_format : list SeqRecord.t → string;
  megablast : list string → gmap string string → tool_outcome
}.

(** ** A state-and-exception monad *)

Definition M (A : Type) : Type := world → result A * world.

Definition ret {A} (a : A) : M A := λ w, (Return a, w).

Definition raise {A} (e : exn) : M A := λ w, (Raise e, w).

Definition bind {A B} (m : M A) (k : A → M B) : M B := λ w,
  match m w with
  | (Return a, w') => k a w'
  | (Raise e, w') => (Raise e, w')
  end.

(** [try: m except ...: h e]; a handler re-raises what it does not catch. *)
Definition try_except {A} (m : M A) (h : exn → M A) : M A := λ w,
  match m w with
  | (Return a, w') => (Return a, w')
  | (Raise e, w') => h e w'
  end.

Definition lift {A} (r : result A) : M A := λ w, (r, w).

Notation "x <- m ;; k" := (bind m (λ x, k))
  (at level 100, m at next level, right associativity,
   format "'[v' x  <-  m  ;;  '/' k ']'").
Notation "m ;;; k" := (bind m (λ _, k))
  (at level 100, right associativity,
   format "'[v' m  ;;;  '/' k ']'").

(** [for x in l: body x] *)
Fixpoint for_each {A} (l : list A) (body : A → M unit) : M unit :=
  match l with
  | [] => ret ()
  | x :: rest => body x ;;; for_each rest body
  end.

(** [if c: m] *)
Definition when (c : bool) (m : M unit) : M unit := if c then m else ret ().

(** ** Built-ins and library calls *)

(** [os.path.isfile(path)] *)
Definition isfile (path : string) : M bool := λ w,
  (Return (bool_decide (is_Some (files w !! path))), w).

(** [os.path.isdir(path)] *)
Definition isdir (path : string) : M bool := λ w,
  (Return (bool_decide (path ∈ dirs w)), w).

(** [os.mkdir(path)] *)
Definition mkdir (path : string) : M unit := λ w,
  if bool_decide (path ∈ dirs w) || bool_decide (is_Some (files w !! path))
     || bool_decide (path ∈ locked w)
  then (Raise OSError, w)
  else (Return (), set_dirs (λ d, {[path]} ∪ d) w).

(** [print line] *)
Definition print (line : string) : M unit := λ w,
  (Return (), add_stdout line w).

(** [open(path, "w")]: the file is created or truncated.  The handle is
    the path itself.  It fails on a directory and on a [locked] path,
    which is how a missing directory shows. *)
Definition open_w (path : string) : M string := λ w,
  if bool_decide (path ∈ dirs w) || bool_decide (path ∈ locked w)
  then (Raise IOError, w)
  else (Return path, set_files (insert path EmptyString) w).

(** [print >>o_file, line]: the line and a newline are appended. *)
Definition print_to (o_file : string) (line : string) : M unit := λ w,
  (Return (),
   set_files
     (λ f, <[o_file := default EmptyString (f !! o_file)
                         +:+ line +:+ String newline EmptyString]> f) w).

(** [o_file.close()] *)
Definition close (o_file : string) : M unit := ret ().

(** [shutil.copyfile(src, dst)] *)
Definition copyfile (src dst : string) : M unit := λ w,
  let w := add_call (copyfile_call src dst) w in
  match files w !! src with
  | None => (Raise IOError, w)
  | Some content =>
      if bool_decide (src = dst) then (Raise ShutilError, w)
      else if bool_decide (dst ∈ dirs w) || bool_decide (dst ∈ locked w)
      then (Raise IOError, w)
      else (Return (), set_files (insert dst content) w)
  end.

(** ** The script: constants and types *)

Definition version : string := "0.3".

(** The [argparse.Namespace] built by [parse_args]. *)
Record Namespace := {
  input : string;
  window : bool;
  window_length : Z;
  database : string;
  word_size : Z;
  minimal_hit_score : Z;
  output_dir : string
}.

(** How the process ends: an exit status, or the traceback of an
    exception nobody caught. *)
Inductive outcome :=
  | Exit (status : Z)
  | Traceback (e : exn).

Section Program.

Context `{Environment}.

(** [SeqIO.parse(path, "fasta")], read to the end. *)
Definition SeqIO_parse (path : string) : M (list SeqRecord.t) := λ w,
  let w := add_call (SeqIO_parse_call path) w in
  match files w !! path with
  | None => (Raise IOError, w)
  | Some content => (Return (fasta_parse content), w)
  end.

(** [SeqIO.write(records, path, "fasta")] *)
Definition SeqIO_write (records : list SeqRecord.t) (path : string)
    : M unit := λ w,
  let w := add_call (SeqIO_write_call records path) w in
  if bool_decide (path ∈ dirs w) || bool_decide (path ∈ locked w)
  then (Raise IOError, w)
  else (Return (), set_files (insert path (fasta_format records)) w).

(** [subprocess.check_output(argv)] *)
Definition check_output (argv : list string) : M string := λ w,
  let w := add_call (check_output_call argv) w in
  match megablast argv (files w) with
  | NotFound => (Raise OSError, w)
  | NonZeroExit => (Raise CalledProcessError, w)
  | Interrupted => (Raise KeyboardInterrupt, w)
  | Output text => (Return text, w)
  end.

(** ** The script *)

Definition check_args (args : Namespace) : M bool :=
  (* Check the input file *)
  is_file <- isfile (input args) ;;
  when (negb is_file)
    (raise (ProgramError (input args +:+ ": no such file"))) ;;;
  (* Check the window size *)
  when (window args)
    (when (window_length args <? 0)
       (raise (ProgramError ("window size: invalid value "
                             +:+ str (window_length args))))) ;;;
  ret true.

Definition split_fasta_sequences (input_file : string) (window_length : Z)
    (output_file : string) : M unit :=
  records <- SeqIO_parse input_file ;;
  let sequences := split_sequences window_length records in
  (* Writing the sequences to file *)
  SeqIO_write sequences output_file.

(** The argument vector given to [check_output]. *)
Definition megablast_argv (sequence_file : string) (options : Namespace)
    : list string :=
  ["megablast";
   "-d"; database options;
   "-i"; sequence_file;
   "-D 3";
   "-W"; str (word_size options);
   "-s"; str (minimal_hit_score options)].

Definition run_megablast (sequence_file output_dir : string)
    (options : Namespace) : M (list string) :=
  output <-
    try_except
      (print EmptyString ;;;
       output <- check_output (megablast_argv sequence_file options) ;;
       print EmptyString ;;;
       ret output)
      (λ e, match e with
            | OSError => raise (ProgramError "megablast: command not found")
            | CalledProcessError =>
                raise (ProgramError "megablast: problem with megablast")
            | _ => raise e
            end) ;;
  (* Splitting the output *)
  let output := split newline output in
  (* Opening the output file *)
  o_file <-
    try_except (open_w (path_join output_dir "megablast_results.txt"))
      (λ e, match e with
            | IOError =>
                raise (ProgramError ("can't write file to " +:+ output_dir))
            | _ => raise e
            end) ;;
  (* Writing the results *)
  for_each output (λ line, print_to o_file line) ;;;
  (* Closing the file *)
  close o_file ;;;
  ret output.

Definition generate_final_output (results : Counter)
    (sequence_file output_dir : string) : M unit :=
  (* The output file *)
  o_file <-
    try_except (open_w (path_join output_dir "final_report.txt"))
      (λ e, match e with
            | IOError =>
                raise (ProgramError ("can't write to " +:+ output_dir))
            | _ => raise e
            end) ;;
  records <- SeqIO_parse sequence_file ;;
  for_each records (λ seq,
    print_to o_file
      (join (String tab EmptyString)
         [SeqRecord.id seq; SeqRecord.seq seq;
          str (Z.of_nat (count_of results (SeqRecord.id seq)))])) ;;;
  (* Closing the file *)
  close o_file.

(** The [try] block of [main], after [parse_args]. *)
Definition main_body (args : Namespace) : M unit :=
  (* Getting and checking the options *)
  check_args args ;;;
  (* Printing the version of the script *)
  print ("pymegablast version " +:+ version) ;;;
  (* Creating the output directory *)
  is_dir <- isdir (output_dir args) ;;
  when (negb is_dir) (mkdir (output_dir args)) ;;;
  (* Do we need to split the input sequence? *)
  let sequence_file :=
    path_join (output_dir args) "megablast_input.fasta" in
  (if window args
   then split_fasta_sequences (input args) (window_length args)
          sequence_file
   else copyfile (input args) sequence_file) ;;;
  (* Running megablast *)
  results <- run_megablast sequence_file (output_dir args) args ;;
  (* Parsing the results *)
  results <- lift (parse_results results) ;;
  (* Now generate the final output *)
  generate_final_output results sequence_file (output_dir args).

(** The [except] clauses of [main]: [parser.error] writes the message to
    the standard error and exits with status 2. *)
Definition main_handlers (r : result unit * world) : outcome * world :=
  match r with
  | (Return _, w) => (Exit 0, w)
  | (Raise KeyboardInterrupt, w) => (Exit 0, add_stderr "Cancelled by user" w)
  | (Raise (ProgramError message), w) => (Exit 2, add_stderr message w)
  | (Raise e, w) => (Traceback e, w)
  end.

Definition main (args : Namespace) (w : world) : outcome * world :=
  main_handlers (main_body args w).

End Program.

(** ** A small FASTA reader and writer, and a canned tool

    Biopython is not part of the script; the general results below hold
    for every [Environment].  The examples run in this one: a title line
    [>title] opens a record whose identifier is the first word of the
    title, the following lines are its residues, and the writer prints
    every record on two lines. *)

Definition first_word (title : string) : string :=
  match split " "%char title with
  | word :: _ => word
  | [] => EmptyString
  end.

Fixpoint parse_lines (lines : list string) (current : option SeqRecord.t)
    : list SeqRecord.t :=
  match lines with
  | [] => option_list current
  | line :: rest =>
      match line with
      | String ">" title =>
          option_list current
          ++ parse_lines rest
               (Some (SeqRecord.Make (first_word title) (first_word title)
                        title EmptyString))
      | _ =>
          parse_lines rest
            ((λ r, SeqRecord.Make (SeqRecord.id r) (SeqRecord.name r)
                     (SeqRecord.description r) (SeqRecord.seq r +:+ line))
               <$> current)
      end
  end.

Definition simple_parse (content : string) : list SeqRecord.t :=
  parse_lines (split newline content) None.

Definition record_title (r : SeqRecord.t) : string :=
  if bool_decide (SeqRecord.description r = EmptyString) then SeqRecord.id r
  else if bool_decide (first_word (SeqRecord.description r) = SeqRecord.id r)
  then SeqRecord.description r
  else SeqRecord.id r +:+ " " +:+ SeqRecord.description r.

Fixpoint simple_format (records : list SeqRecord.t) : string :=
  match records with
  | [] => EmptyString
  | r :: rest =>
      String ">" (record_title r) +:+ String newline (SeqRecord.seq r)
      +:+ String newline (simple_format rest)
  end.

(** An environment whose tool prints [text] whatever it is given. *)
Definition canned_environment (text : string) : Environment :=
  {| fasta_parse := simple_parse;
     fasta_format := simple_format;
     megablast := λ _ _, Output text |}.

(** ** Closed forms used to state the properties *)

(** The window cut at start position [i]: it is window number [i + 1]. *)
Definition window_at (seq : SeqRecord.t) (window_length i : Z) : SeqRecord.t :=
  SeqRecord.Make
    (SeqRecord.id seq +:+ "_" +:+ str (i + 1))
    (SeqRecord.name seq)
    (SeqRecord.description seq +:+ ", window " +:+ str (i + 1))
    (getslice (SeqRecord.seq seq) i (i + window_length)).

(** What one source record contributes to the output. *)
Definition windows_of (window_length : Z) (seq : SeqRecord.t)
    : list SeqRecord.t :=
  if SeqRecord.len seq <=? window_length then [seq]
  else window_at seq window_length
         <$> xrange 0 (SeqRecord.len seq - window_length + 1).

(** [sum(counter.values())] *)
Definition Counter_total (counter : Counter) : nat :=
  map_fold (λ _ n total, (n + total)%nat) 0%nat counter.

(** The text made of the given lines, each followed by a newline. *)
Fixpoint unlines (lines : list string) : string :=
  match lines with
  | [] => EmptyString
  | line :: rest => line +:+ String newline (unlines rest)
  end.

(** The reading of the aggregator under which empty lines are left out:
    after the comment prefix [comments], every identifier is counted over
    the non-empty lines of [rest] only, and the counts add up to the
    number of non-empty, non-comment lines. *)
Definition counts_skip_empty_lines (comments rest : list string) : Prop :=
  ∃ counter : Counter,
    parse_results (comments ++ rest) = Return counter
    ∧ (∀ id : string,
         count_of counter id
         = length (filter (λ l, l ≠ EmptyString ∧ first_field l = id) rest))
    ∧ Counter_total counter
      = length (filter (λ l, l ≠ EmptyString ∧ startswith hash l = false)
                  rest).

(** The same arguments with another [--window-length]. *)
Definition set_window_length (args : Namespace) (window_length : Z)
    : Namespace :=
  {| input := input args; window := window args;
     window_length := window_length; database := database args;
     word_size := word_size args;
     minimal_hit_score := minimal_hit_score args;
     output_dir := output_dir args |}.

(** The part of [main_body] that ends with the lines returned by
    [run_megablast]. *)
Definition main_search `{Environment} (args : Namespace) : M (list string) :=
  check_args args ;;;
  print ("pymegablast version " +:+ version) ;;;
  is_dir <- isdir (output_dir args) ;;
  when (negb is_dir) (mkdir (output_dir args)) ;;;
  let sequence_file :=
    path_join (output_dir args) "megablast_input.fasta" in
  (if window args
   then split_fasta_sequences (input args) (window_length args)
          sequence_file
   else copyfile (input args) sequence_file) ;;;
  run_megablast sequence_file (output_dir args) args.

(** The part of [main_body] that follows the preparation of the
    sequence file. *)
Definition main_report `{Environment} (args : Namespace) : M unit :=
  let sequence_file :=
    path_join (output_dir args) "megablast_input.fasta" in
  results <- run_megablast sequence_file (output_dir args) args ;;
  results <- lift (parse_results results) ;;
  generate_final_output results sequence_file (output_dir args).

(** ** Relations between the world before and after a computation *)

(** [m] takes every world to one related to it by [R], whether it
    returns or raises. *)
Definition preserves (R : relation world) {A} (m : M A) : Prop :=
  ∀ w : world, R w (snd (m w)).

(** Every value [m] returns satisfies [P]. *)
Definition returns {A} (P : A → Prop) (m : M A) : Prop :=
  ∀ (w : world) (a : A) (w' : world), m w = (Return a, w') → P a.

(** No call is made. *)
Definition same_calls : relation world := λ w w', calls w' = calls w.

(** The calls made contain no [SeqIO.write]. *)
Definition no_new_write : relation world := λ w w',
  ∃ new : list call,
    calls w' = calls w ++ new
    ∧ Forall (λ c, ∀ records path, c ≠ SeqIO_write_call records path) new.

(** The file named [path] is left as it is. *)
Definition same_file (path : string) : relation world := λ w w',
  files w' !! path = files w !! path.

(** ** Example inputs *)

Definition seq1 : SeqRecord.t :=
  SeqRecord.Make "seq1" "seq1" "seq1 first" "ACTGAC".

Definition seq2 : SeqRecord.t :=
  SeqRecord.Make "seq2" "seq2" "seq2 short" "AC".

Definition example_input : string :=
  ">seq1 first" +:+ String newline ("ACTGAC" +:+ String newline EmptyString).

(** A world with one input file and nothing else. *)
Definition example_world : world :=
  World {[ "in.fa" := example_input ]} ∅ ∅ [] [] [].

(** A world in which the windowed file has been written and the output
    directory exists. *)
Definition search_world : world :=
  World {[ "in.fa" := example_input;
           "out/megablast_input.fasta" :=
             simple_format (split_sequences 3 [seq1]) ]}
    {[ "out" ]} ∅ [] [] [].

Definition example_args (window : bool) (window_length : Z) : Namespace :=
  {| input := "in.fa"; window := window; window_length := window_length;
     database := "db"; word_size := 10; minimal_hit_score := 17;
     output_dir := "out" |}.

Definition example_counter : Counter := Counter_of ["seq1_2"; "seq1_2"].

Definition example_output : string :=
  "seq1_2" +:+ String tab ("chr1" +:+ String newline EmptyString).

(** ** Further closed forms, relations and examples *)

(** The text recovered from a run of consecutive windows: the first
    character of every window but the last, then the last window. *)
Fixpoint reassemble (windows : list SeqRecord.t) : string :=
  match windows with
  | [] => EmptyString
  | [last] => SeqRecord.seq last
  | w :: rest => substring 0 1 (SeqRecord.seq w) +:+ reassemble rest
  end.


(** No directory is removed, and none is made but [dir]; the set of
    locked paths stays. *)
Definition dirs_within (dir : string) : relation world := λ w w',
  dirs w ⊆ dirs w' ∧ dirs w' ⊆ {[dir]} ∪ dirs w ∧ locked w' = locked w.

(** An environment whose tool always ends the same way. *)
Definition fixed_environment (o : tool_outcome) : Environment :=
  {| fasta_parse := simple_parse;
     fasta_format := simple_format;
     megablast := λ _ _, o |}.

Definition seq3 : SeqRecord.t :=
  SeqRecord.Make "seq3" "seq3" "seq3 long" "GATTACAGATTACA".


(** The content of the sequence file once the first stage has run on an
    input file holding [content]. *)
Definition sequence_content `{Environment} (args : Namespace)
    (content : string) : string :=
  if window args
  then fasta_format
         (split_sequences (window_length args) (fasta_parse content))
  else content.

(** The conditions under which [main] gets as far as running the tool:
    the input file exists and holds [content], the window length passes
    the validation, the output directory exists or can be made, and the
    sequence file can be written (and is not the input file itself when
    the input is copied). *)
Definition startable (args : Namespace) (w : world) (content : string)
    : Prop :=
  files w !! input args = Some content
  ∧ (window args = true → 0 ≤ window_length args)
  ∧ (output_dir args ∈ dirs w
     ∨ files w !! output_dir args = None ∧ output_dir args ∉ locked w)
  ∧ (path_join (output_dir args) "megablast_input.fasta" ∉ dirs w)
  ∧ (path_join (output_dir args) "megablast_input.fasta" ∉ locked w)
  ∧ (window args = false →
     input args ≠ path_join (output_dir args) "megablast_input.fasta").

(** The file [name] of the directory [dir] can be opened for writing. *)
Definition writable (dir name : string) (w : world) : Prop :=
  (path_join dir name ∉ dirs w) ∧ (path_join dir name ∉ locked w).

(** The line of the report for the record [r]. *)
Definition report_line (results : Counter) (r : SeqRecord.t) : string :=
  join (String tab EmptyString)
    [SeqRecord.id r; SeqRecord.seq r;
     str (Z.of_nat (count_of results (SeqRecord.id r)))].


(** A world with no file at all. *)
Definition empty_world : world := World ∅ ∅ ∅ [] [] [].


(** An input file with a short record and a longer one. *)
Definition two_records_input : string :=
  unlines [">seq2 short"; "AC"; ">seq1 first"; "ACTGAC"].

(** A world with that input file and an output directory that exists
    and is still empty. *)
Definition windower_world : world :=
  World {[ "in.fa" := two_records_input ]} {[ "out" ]} ∅ [] [] [].

(** The same world when the report of the output directory cannot be
    written. *)
Definition readonly_world : world :=
  World {[ "in.fa" := two_records_input ]} {[ "out" ]}
    {[ "out/final_report.txt" ]} [] [] [].

(** * Properties *)

(** ** Strings *)

Lemma length_substring (s : string) : ∀ n m : nat,
  (n + m ≤ String.length s)%nat → String.length (substring n m s) = m.
Proof.
  induction s as [|c s IH]; intros [|n] [|m] Hlen; simpl in *;
    try reflexivity; try lia.
  - f_equal. apply (IH 0%nat). lia.
  - apply IH. lia.
  - apply IH. lia.
Qed.

Lemma substring_substring (s : string) : ∀ n m a b : nat,
  (a + b ≤ m)%nat →
  substring a b (substring n m s) = substring (n + a) b s.
Proof.
  induction s as [|c s IH]; intros n m a b Hle.
  - destruct n, m, a, b; simpl; try reflexivity; lia.
  - destruct n as [|n]; simpl.
    + destruct m as [|m].
      * assert (a = 0 ∧ b = 0)%nat as [-> ->] by lia. reflexivity.
      * destruct a as [|a]; simpl.
        -- destruct b as [|b]; [reflexivity|].
           f_equal. apply (IH 0%nat m 0%nat b). lia.
        -- apply (IH 0%nat m a b). lia.
    + apply IH. exact Hle.
Qed.

Lemma getslice_substring (s : string) (i w : Z) :
  0 ≤ i → 0 ≤ w → i + w ≤ Z.of_nat (String.length s) →
  getslice s i (i + w) = substring (Z.to_nat i) (Z.to_nat w) s.
Proof.
  intros Hi Hw Hlen. unfold getslice, slice_bound.
  destruct (Z.ltb_spec i 0); [lia|].
  destruct (Z.ltb_spec (i + w) 0); [lia|].
  f_equal; lia.
Qed.

Lemma split_nonempty (sep : ascii) (s : string) : split sep s ≠ [].
Proof.
  destruct s as [|a s]; simpl; [discriminate|].
  case_bool_decide; [discriminate|]. destruct (split sep s); discriminate.
Qed.

(** ** The windower loops *)

Lemma window_loop (seq : SeqRecord.t) (w : Z) (n : nat) :
  ∀ (a : Z) (sequences : list SeqRecord.t),
    foldl (window_iter seq w) (a, sequences) (seqZ a (Z.of_nat n))
    = (a + Z.of_nat n, sequences ++ (window_at seq w <$> seqZ a (Z.of_nat n))).
Proof.
  induction n as [|n IH]; intros a sequences.
  - rewrite seqZ_nil by lia. simpl. by rewrite Z.add_0_r, app_nil_r.
  - rewrite seqZ_S, foldl_snoc, IH, fmap_app, app_assoc.
    unfold window_iter at 1; simpl. unfold window_at.
    f_equal. lia.
Qed.

Lemma split_iter_windows_of (w : Z) (sequences : list SeqRecord.t)
    (seq : SeqRecord.t) :
  split_iter w sequences seq = sequences ++ windows_of w seq.
Proof.
  unfold split_iter, windows_of, xrange.
  destruct (Z.leb_spec (SeqRecord.len seq) w) as [Hle|Hgt]; [done|].
  rewrite Z.sub_0_r.
  rewrite <-(Z2Nat.id (SeqRecord.len seq - w + 1)) by lia.
  by rewrite window_loop.
Qed.

Lemma split_loop (w : Z) (records : list SeqRecord.t) :
  ∀ sequences,
    foldl (split_iter w) sequences records
    = sequences ++ (records ≫= windows_of w).
Proof.
  induction records as [|seq records IH]; intros sequences; simpl.
  - by rewrite app_nil_r.
  - by rewrite IH, split_iter_windows_of, app_assoc.
Qed.

Lemma split_sequences_bind (w : Z) (records : list SeqRecord.t) :
  split_sequences w records = records ≫= windows_of w.
Proof. unfold split_sequences. by rewrite split_loop. Qed.

Lemma split_sequences_app (w : Z) (seq : SeqRecord.t)
    (pre post : list SeqRecord.t) :
  split_sequences w (pre ++ seq :: post)
  = split_sequences w pre ++ windows_of w seq ++ split_sequences w post.
Proof. rewrite !split_sequences_bind, bind_app. by rewrite bind_cons. Qed.

Lemma windows_of_lookup (w : Z) (seq : SeqRecord.t) (i : nat)
    (r : SeqRecord.t) :
  w < SeqRecord.len seq →
  windows_of w seq !! i = Some r →
  r = window_at seq w (Z.of_nat i) ∧ Z.of_nat i ≤ SeqRecord.len seq - w.
Proof.
  intros Hlt. unfold windows_of, xrange.
  destruct (Z.leb_spec (SeqRecord.len seq) w); [lia|].
  rewrite list_lookup_fmap, fmap_Some. intros (k & Hk & ->).
  apply lookup_seqZ in Hk as [-> Hk]. split; [done|lia].
Qed.

Lemma windows_of_length (w : Z) (seq : SeqRecord.t) :
  w < SeqRecord.len seq →
  Z.of_nat (length (windows_of w seq)) = SeqRecord.len seq - w + 1.
Proof.
  intros Hlt. unfold windows_of, xrange.
  destruct (Z.leb_spec (SeqRecord.len seq) w); [lia|].
  rewrite length_fmap, length_seqZ. lia.
Qed.

(** ** The Sequence Windower *)

(** The file the windower writes is the rendering of [split_sequences]
    applied to the records of the input file. *)
Lemma split_fasta_sequences_writes `{Environment}
    (input_file output_file content : string) (window_length : Z)
    (w : world) :
  files w !! input_file = Some content →
  output_file ∉ dirs w →
  output_file ∉ locked w →
  ∃ w' : world,
    split_fasta_sequences input_file window_length output_file w
    = (Return (), w')
    ∧ files w'
      = <[output_file :=
            fasta_format (split_sequences window_length (fasta_parse content))]>
          (files w).
Proof.
  intros Hinput Hdir Hlocked. eexists. split.
  - unfold split_fasta_sequences, bind, SeqIO_parse, SeqIO_write. simpl.
    rewrite Hinput. simpl.
    rewrite bool_decide_eq_false_2, bool_decide_eq_false_2 by done.
    reflexivity.
  - reflexivity.
Qed.

(** The loops replace a sequence of length [L > w > 0], in place, by the
    [L - w + 1] substrings of length [w] of its residue string, in order
    of start position. *)
Lemma split_sequences_windows (w : Z) (seq : SeqRecord.t)
    (pre post : list SeqRecord.t) :
  0 < w < SeqRecord.len seq →
  ∃ windows : list SeqRecord.t,
    split_sequences w (pre ++ seq :: post)
    = split_sequences w pre ++ windows ++ split_sequences w post
    ∧ Z.of_nat (length windows) = SeqRecord.len seq - w + 1
    ∧ (∀ (i : nat) (r : SeqRecord.t),
         windows !! i = Some r →
         SeqRecord.seq r = substring i (Z.to_nat w) (SeqRecord.seq seq)
         ∧ String.length (SeqRecord.seq r) = Z.to_nat w)
    ∧ (∀ (i : nat) (r r' : SeqRecord.t),
         windows !! i = Some r → windows !! S i = Some r' →
         substring 1 (Z.to_nat w - 1) (SeqRecord.seq r)
         = substring 0 (Z.to_nat w - 1) (SeqRecord.seq r')
         ∧ String.length (substring 1 (Z.to_nat w - 1) (SeqRecord.seq r))
           = (Z.to_nat w - 1)%nat).
Proof.
  intros [Hpos Hlt]. exists (windows_of w seq).
  assert (∀ (i : nat) r, windows_of w seq !! i = Some r →
            SeqRecord.seq r = substring i (Z.to_nat w) (SeqRecord.seq seq)
            ∧ (i + Z.to_nat w ≤ String.length (SeqRecord.seq seq))%nat)
    as Hwin.
  { intros i r Hr. apply windows_of_lookup in Hr as [-> Hi]; [|done].
    unfold SeqRecord.len in *. simpl.
    rewrite getslice_substring by lia. rewrite Nat2Z.id. split; [done|lia]. }
  split; [apply split_sequences_app|].
  split; [by apply windows_of_length|].
  split.
  - intros i r Hr. destruct (Hwin i r Hr) as [-> Hi].
    split; [done|]. by apply length_substring.
  - intros i r r' Hr Hr'.
    destruct (Hwin i r Hr) as [-> Hi]. destruct (Hwin (S i) r' Hr') as [-> Hi'].
    rewrite !substring_substring by lia. split.
    + f_equal. lia.
    + apply length_substring. lia.
Qed.

(** The end-to-end example of the documentation: [ACTGAC] cut with
    [w = 3] gives [ACT], [CTG], [TGA], [GAC]. *)
Example split_sequences_ACTGAC :
  split_sequences 3 [seq1]
  = [SeqRecord.Make "seq1_1" "seq1" "seq1 first, window 1" "ACT";
     SeqRecord.Make "seq1_2" "seq1" "seq1 first, window 2" "CTG";
     SeqRecord.Make "seq1_3" "seq1" "seq1 first, window 3" "TGA";
     SeqRecord.Make "seq1_4" "seq1" "seq1 first, window 4" "GAC"].
Proof. vm_compute. reflexivity. Qed.



Lemma window_id_inj (seq : SeqRecord.t) :
  Inj (=) (=) (λ i : Z, SeqRecord.id seq +:+ "_" +:+ str (i + 1)).
Proof.
  intros i j Heq.
  apply (inj (String.app (SeqRecord.id seq))) in Heq.
  apply (inj (String.app "_")) in Heq.
  apply (inj pretty) in Heq. lia.
Qed.

(** The loops number the windows of a sequence from 1 and name them
    after it. *)
Lemma split_sequences_identifiers (w : Z) (seq : SeqRecord.t)
    (pre post : list SeqRecord.t) :
  w < SeqRecord.len seq →
  ∃ windows : list SeqRecord.t,
    split_sequences w (pre ++ seq :: post)
    = split_sequences w pre ++ windows ++ split_sequences w post
    ∧ Z.of_nat (length windows) = SeqRecord.len seq - w + 1
    ∧ (∀ (n : nat) (r : SeqRecord.t),
         windows !! n = Some r →
         SeqRecord.id r
         = SeqRecord.id seq +:+ "_" +:+ str (Z.of_nat n + 1)
         ∧ SeqRecord.description r
           = SeqRecord.description seq +:+ ", window "
             +:+ str (Z.of_nat n + 1))
    ∧ NoDup (SeqRecord.id <$> windows).
Proof.
  intros Hlt. exists (windows_of w seq).
  split; [apply split_sequences_app|].
  split; [by apply windows_of_length|].
  split.
  - intros n r Hr. by apply windows_of_lookup in Hr as [-> _].
  - unfold windows_of. destruct (Z.leb_spec (SeqRecord.len seq) w); [lia|].
    rewrite <-list_fmap_compose.
    apply (@NoDup_fmap_2 _ _ (SeqRecord.id ∘ window_at seq w)
             (window_id_inj seq)), NoDup_seqZ.
Qed.

(** What a run of the windower does when the input file can be read and
    the output file written. *)
Lemma split_fasta_sequences_runs `{Environment}
    (input_file output_file content : string) (window_length : Z)
    (world0 : world) :
  files world0 !! input_file = Some content →
  output_file ∉ dirs world0 →
  output_file ∉ locked world0 →
  split_fasta_sequences input_file window_length output_file world0
  = (Return (),
     set_files
       (insert output_file
          (fasta_format (split_sequences window_length (fasta_parse content))))
       (add_call
          (SeqIO_write_call
             (split_sequences window_length (fasta_parse content))
             output_file)
          (add_call (SeqIO_parse_call input_file) world0))).
Proof.
  intros Hinput Hdir Hlocked.
  unfold split_fasta_sequences, bind, SeqIO_parse, SeqIO_write. simpl.
  rewrite Hinput. simpl.
  by rewrite bool_decide_eq_false_2, bool_decide_eq_false_2 by done.
Qed.

(** C1: the Sequence Windower, run on an input file that holds a
    sequence of length [L], with a window length [w] such that
    [0 < w < L]: the records it hands to [SeqIO.write], and the file it
    writes, have in the place of that sequence (between what the records
    before it and the records after it give) exactly [L - w + 1] windows;
    the window at index [i] (window number [i + 1]) is the substring of
    length [w] of the residue string that starts at position [i], so the
    windows come in order of increasing start position; two consecutive
    windows share [w - 1] characters: the last [w - 1] of the first are
    the first [w - 1] of the second. *)
Theorem windower_all_windows `{Environment}
    (input_file output_file content : string) (w : Z) (seq : SeqRecord.t)
    (pre post : list SeqRecord.t) (world0 : world) :
  files world0 !! input_file = Some content →
  fasta_parse content = pre ++ seq :: post →
  output_file ∉ dirs world0 →
  output_file ∉ locked world0 →
  0 < w < SeqRecord.len seq →
  ∃ (windows : list SeqRecord.t) (world1 : world),
    split_fasta_sequences input_file w output_file world0
    = (Return (), world1)
    ∧ calls world1
      = calls world0
        ++ [SeqIO_parse_call input_file;
            SeqIO_write_call
              (split_sequences w pre ++ windows ++ split_sequences w post)
              output_file]
    ∧ files world1
      = <[output_file :=
            fasta_format
              (split_sequences w pre ++ windows ++ split_sequences w post)]>
          (files world0)
    ∧ Z.of_nat (length windows) = SeqRecord.len seq - w + 1
    ∧ (∀ (i : nat) (r : SeqRecord.t),
         windows !! i = Some r →
         SeqRecord.seq r = substring i (Z.to_nat w) (SeqRecord.seq seq)
         ∧ String.length (SeqRecord.seq r) = Z.to_nat w)
    ∧ (∀ (i : nat) (r r' : SeqRecord.t),
         windows !! i = Some r → windows !! S i = Some r' →
         substring 1 (Z.to_nat w - 1) (SeqRecord.seq r)
         = substring 0 (Z.to_nat w - 1) (SeqRecord.seq r')
         ∧ String.length (substring 1 (Z.to_nat w - 1) (SeqRecord.seq r))
           = (Z.to_nat w - 1)%nat).
Proof.
  intros Hinput Hparse Hdir Hlocked Hw.
  destruct (split_sequences_windows w seq pre post Hw)
    as (windows & Hsplit & Hlength & Hwindow & Hoverlap).
  exists windows. eexists. split.
  { by apply split_fasta_sequences_runs. }
  rewrite Hparse, Hsplit. simpl. rewrite <-app_assoc. done.
Qed.

Lemma windower_all_windows_witness :
  files windower_world !! "in.fa" = Some two_records_input
  ∧ @fasta_parse (canned_environment example_output) two_records_input
    = [seq2] ++ seq1 :: []
  ∧ ("out/megablast_input.fasta" ∉ dirs windower_world)
  ∧ ("out/megablast_input.fasta" ∉ locked windower_world)
  ∧ 0 < 3 < SeqRecord.len seq1
  ∧ ∃ (windows : list SeqRecord.t) (world1 : world),
      @split_fasta_sequences (canned_environment example_output)
        "in.fa" 3 "out/megablast_input.fasta" windower_world
      = (Return (), world1)
      ∧ calls world1
        = calls windower_world
          ++ [SeqIO_parse_call "in.fa";
              SeqIO_write_call
                (split_sequences 3 [seq2] ++ windows ++ split_sequences 3 [])
                "out/megablast_input.fasta"]
      ∧ files world1
        = <["out/megablast_input.fasta" :=
              @fasta_format (canned_environment example_output)
                (split_sequences 3 [seq2] ++ windows
                 ++ split_sequences 3 [])]>
            (files windower_world)
      ∧ Z.of_nat (length windows) = SeqRecord.len seq1 - 3 + 1
      ∧ (∀ (i : nat) (r : SeqRecord.t),
           windows !! i = Some r →
           SeqRecord.seq r = substring i (Z.to_nat 3) (SeqRecord.seq seq1)
           ∧ String.length (SeqRecord.seq r) = Z.to_nat 3)
      ∧ (∀ (i : nat) (r r' : SeqRecord.t),
           windows !! i = Some r → windows !! S i = Some r' →
           substring 1 (Z.to_nat 3 - 1) (SeqRecord.seq r)
           = substring 0 (Z.to_nat 3 - 1) (SeqRecord.seq r')
           ∧ String.length (substring 1 (Z.to_nat 3 - 1) (SeqRecord.seq r))
             = (Z.to_nat 3 - 1)%nat).
Proof.
  assert (files windower_world !! "in.fa" = Some two_records_input) as H1
    by (vm_compute; reflexivity).
  assert (@fasta_parse (canned_environment example_output) two_records_input
          = [seq2] ++ seq1 :: []) as H2 by (vm_compute; reflexivity).
  assert ("out/megablast_input.fasta" ∉ dirs windower_world) as H3.
  { apply (bool_decide_unpack _). vm_compute. reflexivity. }
  assert ("out/megablast_input.fasta" ∉ locked windower_world) as H4.
  { apply (bool_decide_unpack _). vm_compute. reflexivity. }
  assert (0 < 3 < SeqRecord.len seq1) as H5
    by (vm_compute; split; reflexivity).
  repeat (split; [assumption|]).
  exact (@windower_all_windows (canned_environment example_output)
           "in.fa" "out/megablast_input.fasta" two_records_input 3 seq1
           [seq2] [] windower_world H1 H2 H3 H4 H5).
Defined.

(** The file of that run: the short record as it was, then the four
    windows. *)
Example split_fasta_sequences_two_records :
  files
    (snd (@split_fasta_sequences (canned_environment example_output)
            "in.fa" 3 "out/megablast_input.fasta" windower_world))
  !! "out/megablast_input.fasta"
  = Some (unlines [">seq2 short"; "AC";
                   ">seq1_1 seq1 first, window 1"; "ACT";
                   ">seq1_2 seq1 first, window 2"; "CTG";
                   ">seq1_3 seq1 first, window 3"; "TGA";
                   ">seq1_4 seq1 first, window 4"; "GAC"]).
Proof. vm_compute. reflexivity. Qed.

(** C6: the Sequence Windower, run on an input file that holds a
    sequence that is windowed (its length exceeds [w]): among the records
    it hands to [SeqIO.write], and in the file it writes, the window at
    index [n] of that sequence (the [n + 1]-th generated one) has the
    identifier of the source followed by [_] and the decimal of [n + 1],
    and the description of the source followed by [, window ] and the same
    number; the counter starts at 1 for every source sequence, wherever it
    stands in the file; the identifiers of the windows of one source are
    pairwise distinct. *)
Theorem window_identifiers `{Environment}
    (input_file output_file content : string) (w : Z) (seq : SeqRecord.t)
    (pre post : list SeqRecord.t) (world0 : world) :
  files world0 !! input_file = Some content →
  fasta_parse content = pre ++ seq :: post →
  output_file ∉ dirs world0 →
  output_file ∉ locked world0 →
  w < SeqRecord.len seq →
  ∃ (windows : list SeqRecord.t) (world1 : world),
    split_fasta_sequences input_file w output_file world0
    = (Return (), world1)
    ∧ calls world1
      = calls world0
        ++ [SeqIO_parse_call input_file;
            SeqIO_write_call
              (split_sequences w pre ++ windows ++ split_sequences w post)
              output_file]
    ∧ files world1
      = <[output_file :=
            fasta_format
              (split_sequences w pre ++ windows ++ split_sequences w post)]>
          (files world0)
    ∧ Z.of_nat (length windows) = SeqRecord.len seq - w + 1
    ∧ (∀ (n : nat) (r : SeqRecord.t),
         windows !! n = Some r →
         SeqRecord.id r
         = SeqRecord.id seq +:+ "_" +:+ str (Z.of_nat n + 1)
         ∧ SeqRecord.description r
           = SeqRecord.description seq +:+ ", window "
             +:+ str (Z.of_nat n + 1))
    ∧ NoDup (SeqRecord.id <$> windows).
Proof.
  intros Hinput Hparse Hdir Hlocked Hw.
  destruct (split_sequences_identifiers w seq pre post Hw)
    as (windows & Hsplit & Hlength & Hids & Hdistinct).
  exists windows. eexists. split.
  { by apply split_fasta_sequences_runs. }
  rewrite Hparse, Hsplit. simpl. rewrite <-app_assoc. done.
Qed.

Lemma window_identifiers_witness :
  files windower_world !! "in.fa" = Some two_records_input
  ∧ @fasta_parse (canned_environment example_output) two_records_input
    = [seq2] ++ seq1 :: []
  ∧ ("out/megablast_input.fasta" ∉ dirs windower_world)
  ∧ ("out/megablast_input.fasta" ∉ locked windower_world)
  ∧ 3 < SeqRecord.len seq1
  ∧ ∃ (windows : list SeqRecord.t) (world1 : world),
      @split_fasta_sequences (canned_environment example_output)
        "in.fa" 3 "out/megablast_input.fasta" windower_world
      = (Return (), world1)
      ∧ calls world1
        = calls windower_world
          ++ [SeqIO_parse_call "in.fa";
              SeqIO_write_call
                (split_sequences 3 [seq2] ++ windows ++ split_sequences 3 [])
                "out/megablast_input.fasta"]
      ∧ files world1
        = <["out/megablast_input.fasta" :=
              @fasta_format (canned_environment example_output)
                (split_sequences 3 [seq2] ++ windows
                 ++ split_sequences 3 [])]>
            (files windower_world)
      ∧ Z.of_nat (length windows) = SeqRecord.len seq1 - 3 + 1
      ∧ (∀ (n : nat) (r : SeqRecord.t),
           windows !! n = Some r →
           SeqRecord.id r
           = SeqRecord.id seq1 +:+ "_" +:+ str (Z.of_nat n + 1)
           ∧ SeqRecord.description r
             = SeqRecord.description seq1 +:+ ", window "
               +:+ str (Z.of_nat n + 1))
      ∧ NoDup (SeqRecord.id <$> windows).
Proof.
  assert (files windower_world !! "in.fa" = Some two_records_input) as H1
    by (vm_compute; reflexivity).
  assert (@fasta_parse (canned_environment example_output) two_records_input
          = [seq2] ++ seq1 :: []) as H2 by (vm_compute; reflexivity).
  assert ("out/megablast_input.fasta" ∉ dirs windower_world) as H3.
  { apply (bool_decide_unpack _). vm_compute. reflexivity. }
  assert ("out/megablast_input.fasta" ∉ locked windower_world) as H4.
  { apply (bool_decide_unpack _). vm_compute. reflexivity. }
  assert (3 < SeqRecord.len seq1) as H5 by (vm_compute; reflexivity).
  repeat (split; [assumption|]).
  exact (@window_identifiers (canned_environment example_output)
           "in.fa" "out/megablast_input.fasta" two_records_input 3 seq1
           [seq2] [] windower_world H1 H2 H3 H4 H5).
Defined.

(** ** The Result Aggregator *)

Lemma count_of_insert (counter : Counter) (elem key : string) :
  count_of (<[elem := S (count_of counter elem)]> counter) key
  = if decide (elem = key) then S (count_of counter key)
    else count_of counter key.
Proof.
  unfold count_of at 1. rewrite lookup_insert.
  destruct (decide (elem = key)) as [->|]; reflexivity.
Qed.

Lemma Counter_total_insert (counter : Counter) (elem : string) :
  Counter_total (<[elem := S (count_of counter elem)]> counter)
  = S (Counter_total counter).
Proof.
  unfold Counter_total, count_of.
  destruct (counter !! elem) as [n|] eqn:Hlook; simpl.
  - rewrite <-insert_delete_eq.
    rewrite map_fold_insert_L; [|intros; lia|apply lookup_delete_eq].
    rewrite (map_fold_delete_L _ _ elem n counter); [lia|intros; lia|done].
  - rewrite map_fold_insert_L; [done|intros; lia|done].
Qed.

Lemma Counter_loop (elems : list string) :
  ∀ counter : Counter,
    let final :=
      foldl (λ counter elem, <[elem := S (count_of counter elem)]> counter)
        counter elems in
    (∀ key, count_of final key
            = (count_of counter key + length (filter (λ e, e = key) elems))%nat)
    ∧ Counter_total final = (Counter_total counter + length elems)%nat.
Proof.
  induction elems as [|elem elems IH]; intros counter; simpl.
  - split; [intros key|]; lia.
  - destruct (IH (<[elem := S (count_of counter elem)]> counter))
      as [IHcount IHtotal].
    split.
    + intros key. rewrite IHcount, count_of_insert, filter_cons.
      destruct (decide (elem = key)); simpl; lia.
    + rewrite IHtotal, Counter_total_insert. lia.
Qed.

Lemma count_of_Counter_of (elems : list string) (key : string) :
  count_of (Counter_of elems) key = length (filter (λ e, e = key) elems).
Proof.
  unfold Counter_of. destruct (Counter_loop elems ∅) as [Hcount _].
  rewrite Hcount. unfold count_of. by rewrite lookup_empty.
Qed.

Lemma Counter_total_Counter_of (elems : list string) :
  Counter_total (Counter_of elems) = length elems.
Proof.
  unfold Counter_of. destruct (Counter_loop elems ∅) as [_ Htotal].
  rewrite Htotal. unfold Counter_total. by rewrite map_fold_empty.
Qed.

Lemma length_filter_fmap {A B} (f : A → B) (P : B → Prop)
    `{∀ b, Decision (P b)} (l : list A) :
  length (filter P (f <$> l)) = length (filter (λ a, P (f a)) l).
Proof.
  induction l as [|a l IH]; [done|].
  rewrite fmap_cons, !filter_cons. destruct (decide (P (f a))); simpl; lia.
Qed.

Lemma strip_comments_app (comments : list string) (line : string)
    (rest : list string) :
  Forall (λ l, startswith hash l = true) comments →
  startswith hash line = false →
  strip_comments (comments ++ line :: rest) = Return (line :: rest).
Proof.
  intros Hcomments Hline.
  induction Hcomments as [|c comments Hc _ IH]; simpl.
  - by rewrite Hline.
  - by rewrite Hc.
Qed.

Lemma strip_comments_IndexError (results : list string) :
  strip_comments results = Raise IndexError
  ↔ Forall (λ l, startswith hash l = true) results.
Proof.
  induction results as [|line results IH]; simpl.
  - split; [constructor|done].
  - destruct (startswith hash line) eqn:Hline.
    + rewrite IH. split; [by constructor|by inversion 1].
    + split; [done|]. inversion 1; congruence.
Qed.

Lemma strip_comments_total (results : list string) :
  strip_comments results = Raise IndexError
  ∨ ∃ rest, strip_comments results = Return rest.
Proof.
  induction results as [|line results IH]; simpl; [by left|].
  destruct (startswith hash line); [done|]. right. by eexists.
Qed.

(** C2 (as amended): once the comment prefix is discarded, the count of
    an identifier is the number of remaining lines whose first
    tab-separated field is that identifier, an empty line counting for the
    empty identifier; for a non-empty identifier these are the non-empty
    lines with that first field; the counts add up to the number of all
    remaining lines. *)
Theorem parse_results_counts (comments : list string) (line : string)
    (rest : list string) :
  Forall (λ l, startswith hash l = true) comments →
  startswith hash line = false →
  ∃ counter : Counter,
    parse_results (comments ++ line :: rest) = Return counter
    ∧ (∀ id : string,
         count_of counter id
         = length (filter (λ l, first_field l = id) (line :: rest)))
    ∧ (∀ id : string,
         id ≠ EmptyString →
         count_of counter id
         = length (filter (λ l, l ≠ EmptyString ∧ first_field l = id)
                     (line :: rest)))
    ∧ Counter_total counter = length (line :: rest).
Proof.
  intros Hcomments Hline. eexists. split.
  { unfold parse_results. by rewrite strip_comments_app. }
  split; [|split].
  - intros id. by rewrite count_of_Counter_of, length_filter_fmap.
  - intros id Hid. rewrite count_of_Counter_of, length_filter_fmap.
    f_equal. apply list_filter_iff. intros l. split; [|tauto].
    intros Hl. split; [|done]. intros ->. by rewrite <-Hl in Hid.
  - by rewrite Counter_total_Counter_of, length_fmap.
Qed.

Lemma parse_results_counts_witness :
  Forall (λ l, startswith hash l = true) ["# MEGABLAST"]
  ∧ startswith hash ("seq1_2" +:+ String tab "chr1") = false
  ∧ ∃ counter : Counter,
      parse_results
        (["# MEGABLAST"] ++ ("seq1_2" +:+ String tab "chr1") :: [EmptyString])
      = Return counter
      ∧ (∀ id : string,
           count_of counter id
           = length (filter (λ l, first_field l = id)
                       (("seq1_2" +:+ String tab "chr1") :: [EmptyString])))
      ∧ (∀ id : string,
           id ≠ EmptyString →
           count_of counter id
           = length (filter (λ l, l ≠ EmptyString ∧ first_field l = id)
                       (("seq1_2" +:+ String tab "chr1") :: [EmptyString])))
      ∧ Counter_total counter
        = length (("seq1_2" +:+ String tab "chr1") :: [EmptyString]).
Proof.
  assert (Forall (λ l, startswith hash l = true) ["# MEGABLAST"]) as Hc
    by (repeat constructor).
  split; [exact Hc|]. split; [reflexivity|].
  apply (parse_results_counts ["# MEGABLAST"]
           ("seq1_2" +:+ String tab "chr1") [EmptyString] Hc).
  reflexivity.
Defined.

(** C2 fails as stated: for the lines [# MEGABLAST], [seq1_2<TAB>chr1]
    and an empty line, the empty line is counted (under the empty
    identifier), so the counts add up to 2 while one line is non-empty. *)
Lemma parse_results_counts_empty_line :
  ¬ counts_skip_empty_lines ["# MEGABLAST"]
      ["seq1_2" +:+ String tab "chr1"; EmptyString].
Proof.
  intros (counter & Hparse & _ & Htotal).
  unfold parse_results in Hparse. simpl in Hparse.
  injection Hparse as <-. rewrite Counter_total_Counter_of in Htotal.
  vm_compute in Htotal. discriminate.
Qed.

Lemma bind_assoc {A B C} (m : M A) (f : A → M B) (g : B → M C) (w : world) :
  bind (bind m f) g w = bind m (λ a, bind (f a) g) w.
Proof. unfold bind. by destruct (m w) as [[a|e] w']. Qed.

Lemma bind_ext {A B} (m : M A) (f g : A → M B) (w : world) :
  (∀ a w', f a w' = g a w') → bind m f w = bind m g w.
Proof. intros Hfg. unfold bind. by destruct (m w) as [[a|e] w']. Qed.

Lemma main_body_search `{Environment} (args : Namespace) (w : world) :
  main_body args w
  = bind (main_search args)
      (λ results,
         results <- lift (parse_results results) ;;
         generate_final_output results
           (path_join (output_dir args) "megablast_input.fasta")
           (output_dir args)) w.
Proof.
  unfold main_body, main_search.
  repeat (rewrite bind_assoc; apply bind_ext; intros).
  reflexivity.
Qed.

(** C9: [parse_results] raises [IndexError] exactly on the line lists
    that are empty or made of comment lines only, and returns a counter on
    every other list; [main] has no handler for it: when the search stage
    returns such a list the program ends with the traceback of the
    [IndexError], not with the error exit of a [ProgramError]. *)
Theorem parse_results_IndexError `{Environment} (results : list string) :
  (parse_results results = Raise IndexError
   ↔ Forall (λ l, startswith hash l = true) results)
  ∧ (parse_results results = Raise IndexError
     ∨ ∃ counter, parse_results results = Return counter)
  ∧ (∀ (args : Namespace) (w w1 : world),
       parse_results results = Raise IndexError →
       main_search args w = (Return results, w1) →
       main args w = (Traceback IndexError, w1)).
Proof.
  split; [|split].
  - rewrite <-strip_comments_IndexError. unfold parse_results.
    destruct (strip_comments results); split; congruence.
  - unfold parse_results.
    destruct (strip_comments_total results) as [->|[rest ->]];
      [by left|right; by eexists].
  - intros args w w1 Hparse Hsearch. unfold main.
    rewrite main_body_search. unfold bind at 1. rewrite Hsearch.
    unfold bind, lift. by rewrite Hparse.
Qed.

(** A run that ends this way: the tool prints one comment line without
    a final newline. *)
Example main_IndexError :
  fst (@main (canned_environment "# MEGABLAST") (example_args false 20)
         example_world)
  = Traceback IndexError.
Proof. vm_compute. reflexivity. Qed.

(** ** Frame rules of the monad *)

Section Frame.

Context (R : relation world) `{!PreOrder R}.

Lemma preserves_ret {A} (a : A) : preserves R (ret a).
Proof. intros w. simpl. reflexivity. Qed.

Lemma preserves_raise {A} (e : exn) : preserves R (@raise A e).
Proof. intros w. simpl. reflexivity. Qed.

Lemma preserves_lift {A} (r : result A) : preserves R (lift r).
Proof. intros w. simpl. reflexivity. Qed.

Lemma preserves_bind {A B} (m : M A) (k : A → M B) :
  preserves R m → (∀ a, preserves R (k a)) → preserves R (bind m k).
Proof.
  intros Hm Hk w. unfold bind. specialize (Hm w).
  destruct (m w) as [[a|e] w']; simpl in *; [|done].
  by etrans; [|apply Hk].
Qed.

Lemma preserves_bind_returns {A B} (P : A → Prop) (m : M A)
    (k : A → M B) :
  returns P m → preserves R m → (∀ a, P a → preserves R (k a)) →
  preserves R (bind m k).
Proof.
  intros HP Hm Hk w. unfold bind. specialize (Hm w). specialize (HP w).
  destruct (m w) as [[a|e] w']; simpl in *; [|done].
  etrans; [done|]. by apply Hk, (HP a w').
Qed.

Lemma preserves_try_except {A} (m : M A) (h : exn → M A) :
  preserves R m → (∀ e, preserves R (h e)) → preserves R (try_except m h).
Proof.
  intros Hm Hh w. unfold try_except. specialize (Hm w).
  destruct (m w) as [[a|e] w']; simpl in *; [done|].
  by etrans; [|apply Hh].
Qed.

Lemma preserves_when (c : bool) (m : M unit) :
  preserves R m → preserves R (when c m).
Proof. destruct c; [done|]. intros _. apply preserves_ret. Qed.

Lemma preserves_for_each {A} (l : list A) (body : A → M unit) :
  (∀ x, preserves R (body x)) → preserves R (for_each l body).
Proof.
  intros Hbody. induction l as [|x l IH]; simpl.
  - apply preserves_ret.
  - by apply preserves_bind.
Qed.

End Frame.

Global Instance same_calls_preorder : PreOrder same_calls.
Proof.
  split; [by intros w|]. intros w1 w2 w3 H12 H23. unfold same_calls in *.
  congruence.
Qed.

Global Instance no_new_write_preorder : PreOrder no_new_write.
Proof.
  split.
  - intros w. exists []. by rewrite app_nil_r.
  - intros w1 w2 w3 (new1 & H1 & Hnew1) (new2 & H2 & Hnew2).
    exists (new1 ++ new2). rewrite H2, H1, app_assoc.
    split; [done|by apply Forall_app].
Qed.

Global Instance same_file_preorder (path : string) :
  PreOrder (same_file path).
Proof.
  split; [by intros w|]. intros w1 w2 w3 H12 H23. unfold same_file in *.
  congruence.
Qed.

Lemma same_calls_no_new_write {A} (m : M A) :
  preserves same_calls m → preserves no_new_write m.
Proof.
  intros Hm w. exists []. rewrite app_nil_r. split; [apply Hm|constructor].
Qed.

(** ** What the built-ins change *)

Lemma isfile_same_calls path : preserves same_calls (isfile path).
Proof. by intros w. Qed.

Lemma isdir_same_calls path : preserves same_calls (isdir path).
Proof. by intros w. Qed.

Lemma print_same_calls line : preserves same_calls (print line).
Proof. by intros w. Qed.

Lemma mkdir_same_calls path : preserves same_calls (mkdir path).
Proof. intros w. unfold mkdir. by case_match. Qed.

Lemma open_w_same_calls path : preserves same_calls (open_w path).
Proof. intros w. unfold open_w. by case_match. Qed.

Lemma print_to_same_calls o_file line :
  preserves same_calls (print_to o_file line).
Proof. by intros w. Qed.

Lemma isfile_same_file k path : preserves (same_file k) (isfile path).
Proof. by intros w. Qed.

Lemma isdir_same_file k path : preserves (same_file k) (isdir path).
Proof. by intros w. Qed.

Lemma print_same_file k line : preserves (same_file k) (print line).
Proof. by intros w. Qed.

Lemma mkdir_same_file k path : preserves (same_file k) (mkdir path).
Proof. intros w. unfold mkdir. by case_match. Qed.

Lemma open_w_same_file k path :
  k ≠ path → preserves (same_file k) (open_w path).
Proof.
  intros Hk w. unfold open_w, same_file. case_match; [done|]. simpl.
  by rewrite lookup_insert_ne.
Qed.

Lemma print_to_same_file k o_file line :
  k ≠ o_file → preserves (same_file k) (print_to o_file line).
Proof.
  intros Hk w. unfold print_to, same_file. simpl.
  by rewrite lookup_insert_ne.
Qed.

Lemma check_output_same_file `{Environment} k argv :
  preserves (same_file k) (check_output argv).
Proof. intros w. unfold check_output. simpl. by case_match. Qed.

Lemma SeqIO_parse_same_file `{Environment} k path :
  preserves (same_file k) (SeqIO_parse path).
Proof. intros w. unfold SeqIO_parse. simpl. by case_match. Qed.

Lemma SeqIO_parse_no_new_write `{Environment} path :
  preserves no_new_write (SeqIO_parse path).
Proof.
  intros w. exists [SeqIO_parse_call path].
  split; [unfold SeqIO_parse; simpl; by case_match|].
  by repeat constructor.
Qed.

Lemma check_output_no_new_write `{Environment} argv :
  preserves no_new_write (check_output argv).
Proof.
  intros w. exists [check_output_call argv].
  split; [unfold check_output; simpl; by case_match|].
  by repeat constructor.
Qed.

Lemma copyfile_no_new_write src dst : preserves no_new_write (copyfile src dst).
Proof.
  intros w. exists [copyfile_call src dst].
  split; [unfold copyfile; simpl; by repeat case_match|].
  by repeat constructor.
Qed.

(** ** Writing lines to a file *)

Lemma append_cons (c : ascii) (s t : string) :
  String c s +:+ t = String c (s +:+ t).
Proof. reflexivity. Qed.

Lemma append_nil_r (s : string) : s +:+ EmptyString = s.
Proof.
  induction s as [|c s IH]; [done|]. by rewrite append_cons, IH.
Qed.

Lemma append_assoc (s1 s2 s3 : string) :
  (s1 +:+ s2) +:+ s3 = s1 +:+ (s2 +:+ s3).
Proof.
  induction s1 as [|c s1 IH]; [done|]. by rewrite !append_cons, IH.
Qed.

Lemma set_files_insert_insert (path x : string)
    (y : gmap string string → string) (w : world) :
  set_files (insert path x) (set_files (λ f, <[path := y f]> f) w)
  = set_files (insert path x) w.
Proof. unfold set_files. simpl. by rewrite insert_insert_eq. Qed.

Lemma set_files_insert_id (path s : string) (w : world) :
  files w !! path = Some s → set_files (insert path s) w = w.
Proof.
  intros Hs. destruct w. unfold set_files. simpl in *. by rewrite insert_id.
Qed.

Lemma for_each_print_to {A} (o_file : string) (f : A → string) (l : list A) :
  ∀ (w : world) (s : string),
    files w !! o_file = Some s →
    for_each l (λ x, print_to o_file (f x)) w
    = (Return (), set_files (insert o_file (s +:+ unlines (f <$> l))) w).
Proof.
  induction l as [|x l IH]; intros w s Hs.
  - rewrite fmap_nil. simpl. rewrite append_nil_r.
    by rewrite set_files_insert_id.
  - rewrite fmap_cons. simpl. unfold bind, print_to at 1.
    rewrite (IH _ (s +:+ f x +:+ String newline EmptyString));
      [|simpl; by rewrite lookup_insert_eq, Hs].
    rewrite (set_files_insert_insert o_file). rewrite !append_assoc.
    reflexivity.
Qed.

Lemma unlines_split (text : string) :
  unlines (split newline text) = text +:+ String newline EmptyString.
Proof.
  induction text as [|a text IH]; simpl; [done|].
  case_bool_decide as Ha.
  - subst a. simpl. rewrite IH. reflexivity.
  - destruct (split newline text) as [|field fields] eqn:Hsplit.
    + by destruct (split_nonempty newline text).
    + rewrite append_cons, <-IH. reflexivity.
Qed.

(** ** The Final Report Generator *)

(** C3: the report file holds exactly one line per record of the
    intermediate file, in the order of the file; the line of a record is
    its identifier, a tab, its residue string, a tab and the decimal of
    the value the mapping has for the identifier, which is 0 when the
    mapping has no entry for it. *)
Theorem final_report_lines `{Environment} (results : Counter)
    (sequence_file output_dir content : string) (w : world) :
  path_join output_dir "final_report.txt" ∉ dirs w →
  path_join output_dir "final_report.txt" ∉ locked w →
  sequence_file ≠ path_join output_dir "final_report.txt" →
  files w !! sequence_file = Some content →
  ∃ w' : world,
    generate_final_output results sequence_file output_dir w = (Return (), w')
    ∧ files w'
      = <[path_join output_dir "final_report.txt" :=
            unlines
              ((λ r, SeqRecord.id r +:+ String tab EmptyString
                     +:+ SeqRecord.seq r +:+ String tab EmptyString
                     +:+ str (Z.of_nat
                                (match results !! SeqRecord.id r with
                                 | Some n => n
                                 | None => 0%nat
                                 end)))
                 <$> fasta_parse content)]> (files w)
    ∧ length
        ((λ r, SeqRecord.id r +:+ String tab EmptyString
               +:+ SeqRecord.seq r +:+ String tab EmptyString
               +:+ str (Z.of_nat
                          (match results !! SeqRecord.id r with
                           | Some n => n
                           | None => 0%nat
                           end)))
           <$> fasta_parse content)
      = length (fasta_parse content).
Proof.
  intros Hdir Hlocked Hne Hcontent. eexists. split; [|split].
  - unfold generate_final_output, bind, try_except, open_w.
    rewrite bool_decide_eq_false_2, bool_decide_eq_false_2 by done. simpl.
    unfold SeqIO_parse. simpl. rewrite lookup_insert_ne by done.
    rewrite Hcontent.
    erewrite for_each_print_to; [|simpl; apply lookup_insert_eq].
    reflexivity.
  - simpl. by rewrite insert_insert_eq.
  - by rewrite length_fmap.
Qed.

Lemma final_report_lines_witness :
  (path_join "out" "final_report.txt" ∉ dirs search_world)
  ∧ (path_join "out" "final_report.txt" ∉ locked search_world)
  ∧ "out/megablast_input.fasta" ≠ path_join "out" "final_report.txt"
  ∧ files search_world !! "out/megablast_input.fasta"
    = Some (simple_format (split_sequences 3 [seq1]))
  ∧ ∃ w' : world,
      @generate_final_output (canned_environment example_output)
        example_counter "out/megablast_input.fasta" "out" search_world
      = (Return (), w')
      ∧ files w'
        = <[path_join "out" "final_report.txt" :=
              unlines
                ((λ r, SeqRecord.id r +:+ String tab EmptyString
                       +:+ SeqRecord.seq r +:+ String tab EmptyString
                       +:+ str (Z.of_nat
                                  (match example_counter !! SeqRecord.id r with
                                   | Some n => n
                                   | None => 0%nat
                                   end)))
                   <$> simple_parse
                         (simple_format (split_sequences 3 [seq1])))]>
            (files search_world)
      ∧ length
          ((λ r, SeqRecord.id r +:+ String tab EmptyString
                 +:+ SeqRecord.seq r +:+ String tab EmptyString
                 +:+ str (Z.of_nat
                            (match example_counter !! SeqRecord.id r with
                             | Some n => n
                             | None => 0%nat
                             end)))
             <$> simple_parse (simple_format (split_sequences 3 [seq1])))
        = length (simple_parse (simple_format (split_sequences 3 [seq1]))).
Proof.
  assert (path_join "out" "final_report.txt" ∉ dirs search_world) as H1.
  { apply (bool_decide_unpack _). vm_compute. reflexivity. }
  assert (path_join "out" "final_report.txt" ∉ locked search_world) as H2.
  { apply (bool_decide_unpack _). vm_compute. reflexivity. }
  assert ("out/megablast_input.fasta" ≠ path_join "out" "final_report.txt")
    as H3 by (vm_compute; discriminate).
  assert (files search_world !! "out/megablast_input.fasta"
          = Some (simple_format (split_sequences 3 [seq1]))) as H4
    by (vm_compute; reflexivity).
  repeat (split; [assumption|]).
  exact (@final_report_lines (canned_environment example_output)
           example_counter "out/megablast_input.fasta" "out"
           (simple_format (split_sequences 3 [seq1])) search_world
           H1 H2 H3 H4).
Defined.

(** The report of the documentation's example: the tool reported
    [seq1_2] twice and nothing else. *)
Example final_report_ACTGAC :
  files
    (snd (@generate_final_output (canned_environment example_output)
            example_counter "out/megablast_input.fasta" "out" search_world))
  !! "out/final_report.txt"
  = Some (unlines ["seq1_1" +:+ String tab ("ACT" +:+ String tab "0");
                   "seq1_2" +:+ String tab ("CTG" +:+ String tab "2");
                   "seq1_3" +:+ String tab ("TGA" +:+ String tab "0");
                   "seq1_4" +:+ String tab ("GAC" +:+ String tab "0")]).
Proof. vm_compute. reflexivity. Qed.

(** ** The Search Invoker *)

(** C7 (as amended): when the tool prints [text] and the results file
    can be written, [run_megablast] returns the fields of [text] between
    its newlines and writes these same lines, each followed by a newline,
    to [megablast_results.txt] in the output directory; the file is the
    captured output followed by one more newline. *)
Theorem run_megablast_results_file `{Environment}
    (sequence_file output_dir : string) (options : Namespace) (text : string)
    (w : world) :
  megablast (megablast_argv sequence_file options) (files w) = Output text →
  path_join output_dir "megablast_results.txt" ∉ dirs w →
  path_join output_dir "megablast_results.txt" ∉ locked w →
  ∃ w' : world,
    run_megablast sequence_file output_dir options w
    = (Return (split newline text), w')
    ∧ files w'
      = <[path_join output_dir "megablast_results.txt" :=
            unlines (split newline text)]> (files w)
    ∧ unlines (split newline text) = text +:+ String newline EmptyString.
Proof.
  intros Htool Hdir Hlocked. eexists. split; [|split].
  - unfold run_megablast, bind, try_except, print, check_output. simpl.
    rewrite Htool. unfold open_w. simpl.
    rewrite bool_decide_eq_false_2, bool_decide_eq_false_2 by done. simpl.
    erewrite (for_each_print_to _ (λ line, line));
      [|simpl; apply lookup_insert_eq].
    rewrite list_fmap_id. reflexivity.
  - simpl. by rewrite insert_insert_eq.
  - apply unlines_split.
Qed.

Lemma run_megablast_results_file_witness :
  @megablast (canned_environment example_output)
    (megablast_argv "out/megablast_input.fasta" (example_args true 3))
    (files search_world)
  = Output example_output
  ∧ (path_join "out" "megablast_results.txt" ∉ dirs search_world)
  ∧ (path_join "out" "megablast_results.txt" ∉ locked search_world)
  ∧ ∃ w' : world,
      @run_megablast (canned_environment example_output)
        "out/megablast_input.fasta" "out" (example_args true 3) search_world
      = (Return (split newline example_output), w')
      ∧ files w'
        = <[path_join "out" "megablast_results.txt" :=
              unlines (split newline example_output)]> (files search_world)
      ∧ unlines (split newline example_output)
        = example_output +:+ String newline EmptyString.
Proof.
  assert (path_join "out" "megablast_results.txt" ∉ dirs search_world) as H1.
  { apply (bool_decide_unpack _). vm_compute. reflexivity. }
  assert (path_join "out" "megablast_results.txt" ∉ locked search_world)
    as H2.
  { apply (bool_decide_unpack _). vm_compute. reflexivity. }
  split; [reflexivity|]. repeat (split; [assumption|]).
  exact (@run_megablast_results_file (canned_environment example_output)
           "out/megablast_input.fasta" "out" (example_args true 3)
           example_output search_world eq_refl H1 H2).
Defined.

(** C7 fails as stated: the tool prints [seq1_2<TAB>chr1] and a newline,
    and the results file holds that text followed by a second newline, so
    it is not the captured output byte for byte. *)
Lemma run_megablast_results_not_verbatim :
  files
    (snd (@run_megablast (canned_environment example_output)
            "out/megablast_input.fasta" "out" (example_args true 3)
            search_world))
  !! "out/megablast_results.txt"
  ≠ Some example_output.
Proof. vm_compute. discriminate. Qed.

Lemma write_lines_same_calls (o_file : string) (lines : list string) :
  preserves same_calls (for_each lines (λ line, print_to o_file line)).
Proof.
  apply preserves_for_each; [apply _|]. intros line.
  apply print_to_same_calls.
Qed.

(** C8 (as amended): [run_megablast] makes exactly one call, to the
    external tool, with the ten-element argument vector [megablast],
    [-d], the database, [-i], the sequence file, [-D 3], [-W], the decimal
    of the word size, [-s], the decimal of the minimal hit score: the
    output-type flag and its value travel together as the single argument
    [-D 3], every other flag and value as an argument of its own. *)
Theorem run_megablast_argv `{Environment} (sequence_file output_dir : string)
    (options : Namespace) (w : world) :
  calls (snd (run_megablast sequence_file output_dir options w))
  = calls w
    ++ [check_output_call
          ["megablast"; "-d"; database options; "-i"; sequence_file;
           "-D 3"; "-W"; str (word_size options);
           "-s"; str (minimal_hit_score options)]].
Proof.
  unfold run_megablast, bind at 1, try_except at 1, bind at 1, print at 1.
  unfold bind at 1, check_output, megablast_argv. simpl.
  destruct (megablast _ _) as [| | |text]; try reflexivity.
  unfold bind at 1, print. simpl. unfold bind at 1, try_except, open_w.
  simpl. destruct (_ || _); simpl; [reflexivity|].
  unfold bind at 1.
  pose proof (write_lines_same_calls
                (path_join output_dir "megablast_results.txt")
                (split newline text)) as Hlines.
  match goal with
  | |- context [for_each ?l ?b ?w0] =>
      specialize (Hlines w0); destruct (for_each l b w0) as [[[]|e] w1]
  end; simpl in *; rewrite Hlines; reflexivity.
Qed.

(** C8 fails as stated: the vector passed has ten elements, and it is
    not the eleven-element vector in which [-D] and [3] are separate. *)
Lemma run_megablast_argv_not_separate :
  calls
    (snd (@run_megablast (canned_environment example_output)
            "out/megablast_input.fasta" "out" (example_args true 3)
            search_world))
  ≠ [check_output_call
       ["megablast"; "-d"; "db"; "-i"; "out/megablast_input.fasta";
        "-D"; "3"; "-W"; "10"; "-s"; "17"]].
Proof. vm_compute. discriminate. Qed.

(** ** Paths inside the output directory *)

Lemma length_append (s t : string) :
  String.length (s +:+ t) = (String.length s + String.length t)%nat.
Proof.
  induction s as [|c s IH]; [done|]. rewrite append_cons. simpl. by rewrite IH.
Qed.

Lemma path_join_relative (a b : string) :
  startswith "/"%char b = false →
  ∃ prefix : string,
    (∀ b', startswith "/"%char b' = false → path_join a b' = prefix +:+ b')
    ∧ (String.length a ≤ String.length prefix)%nat.
Proof.
  intros _. unfold path_join.
  destruct (bool_decide (a = EmptyString) || endswith "/"%char a) eqn:Hsep.
  - exists a. split; [|done]. intros b' ->. reflexivity.
  - exists (a +:+ "/"). split.
    + intros b' ->. by rewrite append_assoc.
    + rewrite length_append. lia.
Qed.

Lemma path_join_inj (a b b' : string) :
  startswith "/"%char b = false → startswith "/"%char b' = false →
  path_join a b = path_join a b' → b = b'.
Proof.
  intros Hb Hb'. destruct (path_join_relative a b Hb) as (prefix & Hjoin & _).
  rewrite !Hjoin by done. apply (inj (String.app prefix)).
Qed.

Lemma path_join_ne_dir (a b : string) :
  startswith "/"%char b = false → b ≠ EmptyString → path_join a b ≠ a.
Proof.
  intros Hb Hne Heq.
  destruct (path_join_relative a b Hb) as (prefix & Hjoin & Hlen).
  rewrite Hjoin in Heq by done. apply (f_equal String.length) in Heq.
  rewrite length_append in Heq. destruct b; [done|]. simpl in Heq. lia.
Qed.

(** ** Frames of the stages *)

Ltac frame_step :=
  match goal with
  | |- preserves _ (match ?e with _ => _ end) => destruct e
  | |- preserves _ (ret _) => apply preserves_ret
  | |- preserves _ (raise _) => apply preserves_raise
  | |- preserves _ (lift _) => apply preserves_lift
  | |- preserves _ (close _) => apply preserves_ret
  | |- preserves _ (bind _ _) => apply preserves_bind
  | |- preserves _ (try_except _ _) => apply preserves_try_except
  | |- preserves _ (when _ _) => apply preserves_when
  | |- preserves _ (for_each _ _) => apply preserves_for_each
  | |- PreOrder _ => apply _
  | |- ∀ _, _ => intros
  end.

Ltac frame := repeat frame_step.

Create HintDb frame.

#[local] Hint Resolve isfile_same_calls isdir_same_calls print_same_calls
  mkdir_same_calls open_w_same_calls print_to_same_calls
  isfile_same_file isdir_same_file print_same_file mkdir_same_file
  open_w_same_file print_to_same_file check_output_same_file
  SeqIO_parse_same_file SeqIO_parse_no_new_write check_output_no_new_write
  copyfile_no_new_write same_calls_no_new_write : frame.

Lemma open_w_returns (path : string) (h : exn → M string) :
  (∀ e, returns (eq path) (h e)) →
  returns (eq path) (try_except (open_w path) h).
Proof.
  intros Hh w o w'. unfold try_except, open_w.
  destruct (_ || _); [apply Hh|]. by intros [= <- _].
Qed.

Lemma raise_returns {A} (P : A → Prop) (e : exn) : returns P (raise e).
Proof. by intros w a w'. Qed.

Ltac open_file :=
  match goal with
  | |- preserves ?R (bind (try_except (open_w ?path) _) _) =>
      apply (preserves_bind_returns R (eq path));
        [apply open_w_returns; intros []; apply raise_returns
        |
        |intros ? <-]
  end.

Lemma check_args_same_calls (args : Namespace) :
  preserves same_calls (check_args args).
Proof. unfold check_args. frame; auto with frame. Qed.

Lemma run_megablast_same_file `{Environment} (k sequence_file output_dir : string)
    (options : Namespace) :
  k ≠ path_join output_dir "megablast_results.txt" →
  preserves (same_file k) (run_megablast sequence_file output_dir options).
Proof.
  intros Hk. unfold run_megablast.
  apply preserves_bind; [apply _|frame; auto with frame|intros output].
  open_file; frame; auto with frame.
Qed.

Lemma generate_final_output_same_file `{Environment} (k : string)
    (results : Counter) (sequence_file output_dir : string) :
  k ≠ path_join output_dir "final_report.txt" →
  preserves (same_file k)
    (generate_final_output results sequence_file output_dir).
Proof.
  intros Hk. unfold generate_final_output.
  open_file; frame; auto with frame.
Qed.

Lemma run_megablast_no_new_write `{Environment}
    (sequence_file output_dir : string) (options : Namespace) :
  preserves no_new_write (run_megablast sequence_file output_dir options).
Proof.
  unfold run_megablast.
  apply preserves_bind; [apply _|frame; auto with frame|intros output].
  open_file; frame; auto with frame.
Qed.

Lemma generate_final_output_no_new_write `{Environment} (results : Counter)
    (sequence_file output_dir : string) :
  preserves no_new_write
    (generate_final_output results sequence_file output_dir).
Proof.
  unfold generate_final_output. open_file; frame; auto with frame.
Qed.

Lemma main_handlers_calls (r : result unit) (w : world) :
  calls (snd (main_handlers (r, w))) = calls w.
Proof. destruct r as [[]|[]]; reflexivity. Qed.

Lemma main_handlers_files (r : result unit) (w : world) :
  files (snd (main_handlers (r, w))) = files w.
Proof. destruct r as [[]|[]]; reflexivity. Qed.

Lemma main_report_same_file `{Environment} (args : Namespace) :
  preserves (same_file (path_join (output_dir args) "megablast_input.fasta"))
    (main_report args).
Proof.
  unfold main_report. cbv zeta.
  apply preserves_bind; [apply _| |intros lines].
  - apply run_megablast_same_file. intros Heq.
    by apply path_join_inj in Heq.
  - apply preserves_bind; [apply _|apply preserves_lift; apply _|].
    intros results. apply generate_final_output_same_file. intros Heq.
    by apply path_join_inj in Heq.
Qed.

Lemma main_report_no_new_write `{Environment} (args : Namespace) :
  preserves no_new_write (main_report args).
Proof.
  unfold main_report. cbv zeta. frame;
    auto using run_megablast_no_new_write,
      generate_final_output_no_new_write.
Qed.

Lemma main_body_no_new_write `{Environment} (args : Namespace) :
  window args = false → preserves no_new_write (main_body args).
Proof.
  intros Hwindow. unfold main_body. rewrite Hwindow. cbv zeta.
  frame;
    auto using check_args_same_calls, run_megablast_no_new_write,
      generate_final_output_no_new_write with frame.
Qed.

(** ** Argument validation and the choice between copy and windows *)

(** C4 (as amended): when windowing is requested, every negative window
    length makes [check_args] raise a [ProgramError], and [main] ends with
    the error exit before anything else runs: the world is the initial one
    with the message on the standard error, so the windower was not
    called.  The window length 0 is not rejected. *)
Theorem check_args_negative_window `{Environment} (args : Namespace)
    (w : world) :
  window args = true →
  window_length args < 0 →
  ∃ message : string,
    check_args args w = (Raise (ProgramError message), w)
    ∧ main args w = (Exit 2, add_stderr message w).
Proof.
  intros Hwindow Hneg.
  assert (∃ message, check_args args w = (Raise (ProgramError message), w))
    as [message Hcheck].
  { unfold check_args, bind, isfile. rewrite Hwindow.
    destruct (bool_decide (is_Some (files w !! input args))); simpl.
    - destruct (Z.ltb_spec (window_length args) 0); [|lia]. simpl.
      by eexists.
    - by eexists. }
  exists message. split; [done|].
  unfold main, main_body, bind at 1. by rewrite Hcheck.
Qed.

Lemma check_args_negative_window_witness :
  window (example_args true (-5)) = true
  ∧ window_length (example_args true (-5)) < 0
  ∧ ∃ message : string,
      check_args (example_args true (-5)) example_world
      = (Raise (ProgramError message), example_world)
      ∧ @main (canned_environment example_output) (example_args true (-5))
          example_world
        = (Exit 2, add_stderr message example_world).
Proof.
  split; [reflexivity|]. split; [reflexivity|].
  exact (@check_args_negative_window (canned_environment example_output)
           (example_args true (-5)) example_world eq_refl eq_refl).
Defined.

(** C4 fails as stated: with [--window] and the window length 0 the
    arguments are accepted, the windower runs (its [SeqIO.write] is in the
    calls) and the program ends with status 0. *)
Lemma main_accepts_zero_window :
  check_args (example_args true 0) example_world
  = (Return true, example_world)
  ∧ fst (@main (canned_environment example_output) (example_args true 0)
           example_world)
    = Exit 0
  ∧ calls (snd (@main (canned_environment example_output)
                  (example_args true 0) example_world))
    = [SeqIO_parse_call "in.fa";
       SeqIO_write_call (split_sequences 0 [seq1])
         "out/megablast_input.fasta";
       check_output_call
         ["megablast"; "-d"; "db"; "-i"; "out/megablast_input.fasta";
          "-D 3"; "-W"; "10"; "-s"; "17"];
       SeqIO_parse_call "out/megablast_input.fasta"].
Proof. split; [|split]; vm_compute; reflexivity. Qed.

Lemma main_body_copy `{Environment} (args : Namespace) (w : world)
    (content : string) :
  window args = false →
  files w !! input args = Some content →
  output_dir args ∈ dirs w
  ∨ (files w !! output_dir args = None ∧ output_dir args ∉ locked w) →
  input args ≠ path_join (output_dir args) "megablast_input.fasta" →
  path_join (output_dir args) "megablast_input.fasta" ∉ dirs w →
  path_join (output_dir args) "megablast_input.fasta" ∉ locked w →
  ∃ w1 : world,
    main_body args w = main_report args w1
    ∧ files w1
      = <[path_join (output_dir args) "megablast_input.fasta" := content]>
          (files w)
    ∧ calls w1
      = calls w
        ++ [copyfile_call (input args)
              (path_join (output_dir args) "megablast_input.fasta")].
Proof.
  intros Hwindow Hinput Hout Hne Hdir Hlocked.
  assert (check_args args w = (Return true, w)) as Hcheck.
  { unfold check_args, bind, isfile. rewrite Hwindow, Hinput.
    by rewrite bool_decide_eq_true_2. }
  assert (∃ w0, when (negb (bool_decide (output_dir args ∈ dirs w)))
                  (mkdir (output_dir args))
                  (add_stdout ("pymegablast version " +:+ version) w)
                = (Return (), w0)
                ∧ files w0 = files w ∧ locked w0 = locked w
                ∧ calls w0 = calls w
                ∧ (path_join (output_dir args) "megablast_input.fasta"
                     ∉ dirs w0)) as (w0 & Hmkdir & Hfiles & Hlock & Hcalls & Hd).
  { case_bool_decide as Hisdir; simpl.
    - by eexists.
    - destruct Hout as [?|[Hnofile Hfree]]; [done|].
      unfold mkdir. simpl. rewrite Hnofile.
      rewrite !bool_decide_eq_false_2 by (done || by inversion 1). simpl.
      eexists. repeat (split; [reflexivity|]). simpl.
      rewrite elem_of_union, elem_of_singleton. intros [Heq|?]; [|done].
      by apply path_join_ne_dir in Heq. }
  exists (set_files
            (insert (path_join (output_dir args) "megablast_input.fasta")
               content)
            (add_call
               (copyfile_call (input args)
                  (path_join (output_dir args) "megablast_input.fasta"))
               w0)).
  split; [|split; simpl; congruence].
  unfold main_body. rewrite Hwindow. unfold bind at 1. rewrite Hcheck.
  unfold bind at 1, print at 1. unfold bind at 1, isdir at 1. simpl.
  unfold bind at 1. rewrite Hmkdir. cbv zeta.
  unfold bind at 1, copyfile. simpl. rewrite Hfiles, Hinput.
  rewrite !bool_decide_eq_false_2 by (by rewrite ?Hlock). simpl.
  reflexivity.
Qed.

(** C10: without [--window] the window length is not looked at: the
    outcome of [check_args] is the same for every value of it, negative
    ones included, and is success as soon as the input file exists; no
    [SeqIO.write], the only output of the windower, is among the calls
    [main] makes; and when the input file exists, the output directory
    exists or can be made and the sequence file can be written, the file
    [megablast_input.fasta] of the output directory has, at the end of the
    run, the exact content of the input file. *)
Theorem main_without_window `{Environment} (args : Namespace) (w : world) :
  window args = false →
  (∀ window_length : Z,
     check_args (set_window_length args window_length) w = check_args args w)
  ∧ (is_Some (files w !! input args) → check_args args w = (Return true, w))
  ∧ no_new_write w (snd (main args w))
  ∧ (∀ content : string,
       files w !! input args = Some content →
       output_dir args ∈ dirs w
       ∨ (files w !! output_dir args = None ∧ output_dir args ∉ locked w) →
       input args ≠ path_join (output_dir args) "megablast_input.fasta" →
       path_join (output_dir args) "megablast_input.fasta" ∉ dirs w →
       path_join (output_dir args) "megablast_input.fasta" ∉ locked w →
       copyfile_call (input args)
         (path_join (output_dir args) "megablast_input.fasta")
       ∈ calls (snd (main args w))
       ∧ files (snd (main args w))
         !! path_join (output_dir args) "megablast_input.fasta"
         = Some content).
Proof.
  intros Hwindow. split; [|split; [|split]].
  - intros wl. unfold check_args. simpl. by rewrite Hwindow.
  - intros [content Hinput]. unfold check_args, bind, isfile.
    rewrite Hwindow, Hinput. by rewrite bool_decide_eq_true_2.
  - unfold main. pose proof (main_body_no_new_write args Hwindow w) as Hbody.
    destruct (main_body args w) as [r w1]. unfold no_new_write in *.
    by rewrite main_handlers_calls.
  - intros content Hinput Hout Hne Hdir Hlocked. unfold main.
    destruct (main_body_copy args w content) as (w1 & -> & Hfiles & Hcalls);
      [done..|].
    pose proof (main_report_same_file args w1) as Hfile.
    pose proof (main_report_no_new_write args w1) as (new & Hnew & _).
    destruct (main_report args w1) as [r w2]. unfold same_file in Hfile.
    rewrite main_handlers_calls, main_handlers_files. simpl in *. split.
    + rewrite Hnew, Hcalls, !elem_of_app, list_elem_of_singleton. auto.
    + by rewrite Hfile, Hfiles, lookup_insert_eq.
Qed.

Lemma main_without_window_witness :
  window (example_args false (-5)) = false
  ∧ (∀ window_length : Z,
       check_args (set_window_length (example_args false (-5)) window_length)
         example_world
       = check_args (example_args false (-5)) example_world)
  ∧ (is_Some (files example_world !! input (example_args false (-5))) →
     check_args (example_args false (-5)) example_world
     = (Return true, example_world))
  ∧ no_new_write example_world
      (snd (@main (canned_environment example_output)
              (example_args false (-5)) example_world))
  ∧ (∀ content : string,
       files example_world !! input (example_args false (-5)) = Some content →
       output_dir (example_args false (-5)) ∈ dirs example_world
       ∨ (files example_world !! output_dir (example_args false (-5)) = None
          ∧ output_dir (example_args false (-5)) ∉ locked example_world) →
       input (example_args false (-5))
       ≠ path_join (output_dir (example_args false (-5)))
           "megablast_input.fasta" →
       path_join (output_dir (example_args false (-5)))
         "megablast_input.fasta" ∉ dirs example_world →
       path_join (output_dir (example_args false (-5)))
         "megablast_input.fasta" ∉ locked example_world →
       copyfile_call (input (example_args false (-5)))
         (path_join (output_dir (example_args false (-5)))
            "megablast_input.fasta")
       ∈ calls (snd (@main (canned_environment example_output)
                       (example_args false (-5)) example_world))
       ∧ files (snd (@main (canned_environment example_output)
                       (example_args false (-5)) example_world))
         !! path_join (output_dir (example_args false (-5)))
              "megablast_input.fasta"
         = Some content).
Proof.
  split; [reflexivity|].
  exact (@main_without_window (canned_environment example_output)
           (example_args false (-5)) example_world eq_refl).
Defined.

(** A run without [--window] and with a negative window length: the
    program ends with status 0 and the sequence file is the input file. *)
Example main_copy_negative_window_length :
  fst (@main (canned_environment example_output) (example_args false (-5))
         example_world)
  = Exit 0
  ∧ files (snd (@main (canned_environment example_output)
                  (example_args false (-5)) example_world))
    !! "out/megablast_input.fasta"
    = Some example_input.
Proof. split; vm_compute; reflexivity. Qed.

(** * Further properties *)

(** ** The windower: bounds, count, idempotence, coverage *)


Lemma substring_all (s : string) : substring 0 (String.length s) s = s.
Proof. induction s as [|c s IH]; simpl; [done|by f_equal]. Qed.

Lemma substring_app (s : string) : ∀ n a b : nat,
  (n + a + b ≤ String.length s)%nat →
  substring n a s +:+ substring (n + a) b s = substring n (a + b) s.
Proof.
  induction s as [|c s IH]; intros n a b Hlen; simpl in Hlen.
  - assert (n = 0 ∧ a = 0 ∧ b = 0)%nat as (-> & -> & ->) by lia. reflexivity.
  - destruct n as [|n]; simpl.
    + destruct a as [|a]; simpl; [reflexivity|].
      rewrite append_cons. f_equal. apply (IH 0%nat). simpl. lia.
    + apply IH. lia.
Qed.


Lemma window_at_seq (seq : SeqRecord.t) (w i : Z) :
  0 ≤ i → 0 ≤ w → i + w ≤ SeqRecord.len seq →
  SeqRecord.seq (window_at seq w i)
  = substring (Z.to_nat i) (Z.to_nat w) (SeqRecord.seq seq).
Proof. intros. unfold SeqRecord.len in *. simpl. by apply getslice_substring. Qed.

Lemma windows_of_len (w : Z) (seq r : SeqRecord.t) :
  0 ≤ w → r ∈ windows_of w seq →
  r = seq ∧ SeqRecord.len seq ≤ w
  ∨ SeqRecord.len r = w ∧ w < SeqRecord.len seq.
Proof.
  intros Hw. unfold windows_of, xrange.
  destruct (Z.leb_spec (SeqRecord.len seq) w) as [Hle|Hgt].
  - rewrite list_elem_of_singleton. intros ->. by left.
  - rewrite list_elem_of_fmap. intros (i & -> & Hi).
    apply elem_of_seqZ in Hi. right. split; [|done].
    unfold SeqRecord.len at 1. rewrite window_at_seq by lia.
    unfold SeqRecord.len in *. rewrite length_substring; lia.
Qed.

Lemma split_sequences_short (w : Z) (records : list SeqRecord.t) :
  Forall (λ r, SeqRecord.len r ≤ w) records →
  split_sequences w records = records.
Proof.
  rewrite split_sequences_bind.
  induction 1 as [|seq records Hseq _ IH]; [done|].
  rewrite bind_cons, IH. unfold windows_of.
  by destruct (Z.leb_spec (SeqRecord.len seq) w); [|lia].
Qed.

Lemma split_sequences_len (w : Z) (records : list SeqRecord.t) :
  0 ≤ w → Forall (λ r, SeqRecord.len r ≤ w) (split_sequences w records).
Proof.
  intros Hw. rewrite split_sequences_bind, Forall_forall. intros r Hr.
  apply list_elem_of_bind in Hr as (seq & Hr & _).
  apply windows_of_len in Hr as [[-> ?]|[-> _]]; [done..|lia].
Qed.

Lemma windows_of_cut (w : Z) (seq r : SeqRecord.t) :
  0 ≤ w → r ∈ windows_of w seq →
  r = seq ∧ SeqRecord.len seq ≤ w
  ∨ w < SeqRecord.len seq
    ∧ ∃ i : nat,
        Z.of_nat i + w ≤ SeqRecord.len seq
        ∧ SeqRecord.seq r
          = substring i (Z.to_nat w) (SeqRecord.seq seq)
        ∧ String.length (SeqRecord.seq r) = Z.to_nat w
        ∧ SeqRecord.name r = SeqRecord.name seq.
Proof.
  intros Hw. unfold windows_of, xrange.
  destruct (Z.leb_spec (SeqRecord.len seq) w) as [Hle|Hgt].
  - rewrite list_elem_of_singleton. intros ->. by left.
  - rewrite list_elem_of_fmap. intros (i & -> & Hi).
    apply elem_of_seqZ in Hi. right. split; [done|].
    exists (Z.to_nat i). rewrite window_at_seq by lia.
    split; [lia|]. split; [done|]. split; [|done].
    unfold SeqRecord.len in *. apply length_substring. lia.
Qed.

(** X1: with a window length [w] that is not negative, whatever the
    windower hands to [SeqIO.write] is made of pieces of the input no
    longer than [w]: a run makes one call to the reader and one to the
    writer, and every record given to the writer has length at most [w]
    and is either a record of the input file, of length at most [w] and
    left as it was, or a window: the [w] residues that start at some
    position [i] of a longer record of the input file, with [i + w]
    within its length, under that record's name. *)
Theorem windower_output_bounded `{Environment}
    (input_file output_file content : string) (w : Z) (world0 : world) :
  0 ≤ w →
  files world0 !! input_file = Some content →
  ∃ written : list SeqRecord.t,
    calls (snd (split_fasta_sequences input_file w output_file world0))
    = calls world0
      ++ [SeqIO_parse_call input_file; SeqIO_write_call written output_file]
    ∧ ∀ r : SeqRecord.t,
        r ∈ written →
        SeqRecord.len r ≤ w
        ∧ (r ∈ fasta_parse content
           ∨ ∃ (seq : SeqRecord.t) (i : nat),
               seq ∈ fasta_parse content
               ∧ w < SeqRecord.len seq
               ∧ Z.of_nat i + w ≤ SeqRecord.len seq
               ∧ SeqRecord.seq r
                 = substring i (Z.to_nat w) (SeqRecord.seq seq)
               ∧ String.length (SeqRecord.seq r) = Z.to_nat w
               ∧ SeqRecord.name r = SeqRecord.name seq).
Proof.
  intros Hw Hinput. exists (split_sequences w (fasta_parse content)). split.
  - unfold split_fasta_sequences, bind, SeqIO_parse, SeqIO_write. simpl.
    rewrite Hinput. simpl. destruct (_ || _); simpl; by rewrite <-app_assoc.
  - intros r. rewrite split_sequences_bind.
    intros (seq & Hr & Hseq)%list_elem_of_bind.
    apply windows_of_cut in Hr
      as [[-> ?]|(Hgt & i & Hi & Hcut & Hlen & Hname)]; [| |done].
    + split; [done|by left].
    + split; [unfold SeqRecord.len; lia|]. right. by exists seq, i.
Qed.

Lemma windower_output_bounded_witness :
  0 ≤ 3
  ∧ files windower_world !! "in.fa" = Some two_records_input
  ∧ ∃ written : list SeqRecord.t,
      calls
        (snd (@split_fasta_sequences (canned_environment example_output)
                "in.fa" 3 "out/megablast_input.fasta" windower_world))
      = calls windower_world
        ++ [SeqIO_parse_call "in.fa";
            SeqIO_write_call written "out/megablast_input.fasta"]
      ∧ ∀ r : SeqRecord.t,
          r ∈ written →
          SeqRecord.len r ≤ 3
          ∧ (r ∈ @fasta_parse (canned_environment example_output)
                   two_records_input
             ∨ ∃ (seq : SeqRecord.t) (i : nat),
                 seq ∈ @fasta_parse (canned_environment example_output)
                         two_records_input
                 ∧ 3 < SeqRecord.len seq
                 ∧ Z.of_nat i + 3 ≤ SeqRecord.len seq
                 ∧ SeqRecord.seq r
                   = substring i (Z.to_nat 3) (SeqRecord.seq seq)
                 ∧ String.length (SeqRecord.seq r) = Z.to_nat 3
                 ∧ SeqRecord.name r = SeqRecord.name seq).
Proof.
  assert (0 ≤ 3) as H1 by lia.
  assert (files windower_world !! "in.fa" = Some two_records_input) as H2
    by (vm_compute; reflexivity).
  split; [exact H1|]. split; [exact H2|].
  exact (@windower_output_bounded (canned_environment example_output)
           "in.fa" "out/megablast_input.fasta" two_records_input 3
           windower_world H1 H2).
Defined.

(** X2: with a window length that is not negative, windowing is
    idempotent: every record of the output has length at most [w], so
    running the windower on its own output changes nothing. *)
Theorem windower_idempotent (w : Z) (records : list SeqRecord.t) :
  0 ≤ w →
  split_sequences w (split_sequences w records) = split_sequences w records.
Proof. intros Hw. by apply split_sequences_short, split_sequences_len. Qed.

Lemma windower_idempotent_witness :
  0 ≤ 3
  ∧ split_sequences 3 (split_sequences 3 [seq2; seq3])
    = split_sequences 3 [seq2; seq3].
Proof.
  split; [lia|]. apply (windower_idempotent 3 [seq2; seq3]). lia.
Defined.


Lemma reassemble_cons (a b : SeqRecord.t) (rest : list SeqRecord.t) :
  reassemble (a :: b :: rest)
  = substring 0 1 (SeqRecord.seq a) +:+ reassemble (b :: rest).
Proof. reflexivity. Qed.

Lemma reassemble_windows (seq : SeqRecord.t) (w : Z) (n : nat) :
  0 < w →
  ∀ k : nat,
    Z.of_nat k + Z.of_nat n + w ≤ SeqRecord.len seq →
    reassemble (window_at seq w <$> seqZ (Z.of_nat k) (Z.of_nat (S n)))
    = substring k (n + Z.to_nat w) (SeqRecord.seq seq).
Proof.
  intros Hw. induction n as [|n IH]; intros k Hlen.
  - rewrite seqZ_cons, seqZ_nil by lia. rewrite fmap_cons, fmap_nil. simpl.
    rewrite (getslice_substring _ (Z.of_nat k) w)
      by (unfold SeqRecord.len in *; lia).
    by rewrite Nat2Z.id.
  - rewrite seqZ_cons by lia. rewrite fmap_cons.
    replace (Z.succ (Z.of_nat k)) with (Z.of_nat (S k)) by lia.
    replace (Z.pred (Z.of_nat (S (S n)))) with (Z.of_nat (S n)) by lia.
    specialize (IH (S k) ltac:(lia)).
    destruct (window_at seq w <$> seqZ (Z.of_nat (S k)) (Z.of_nat (S n)))
      as [|b rest] eqn:Hrest.
    { apply (f_equal length) in Hrest.
      rewrite length_fmap, length_seqZ in Hrest. simpl in Hrest. lia. }
    rewrite reassemble_cons, IH, window_at_seq by lia.
    rewrite Nat2Z.id, substring_substring by lia.
    rewrite Nat.add_0_r.
    replace (S k) with (k + 1)%nat by lia.
    rewrite substring_app by (unfold SeqRecord.len in *; lia).
    f_equal.
Qed.

(** X4: with a positive window length the windows of a record cover it
    without a gap: the residue string of the source is the first
    character of every window but the last, followed by the last window
    (and a record that is not windowed is its own single output). *)
Theorem windower_reassemble (w : Z) (seq : SeqRecord.t) :
  0 < w →
  reassemble (split_sequences w [seq]) = SeqRecord.seq seq.
Proof.
  intros Hw. rewrite split_sequences_bind, bind_cons.
  change ([] ≫= windows_of w) with (@nil SeqRecord.t). rewrite app_nil_r.
  unfold windows_of, xrange.
  destruct (Z.leb_spec (SeqRecord.len seq) w) as [Hle|Hgt]; [done|].
  rewrite Z.sub_0_r.
  replace (SeqRecord.len seq - w + 1)
    with (Z.of_nat (S (Z.to_nat (SeqRecord.len seq - w)))) by lia.
  rewrite (reassemble_windows seq w _ Hw 0%nat) by lia.
  replace (Z.to_nat (SeqRecord.len seq - w) + Z.to_nat w)%nat
    with (String.length (SeqRecord.seq seq))
    by (unfold SeqRecord.len in *; lia).
  apply substring_all.
Qed.

Lemma windower_reassemble_witness :
  0 < 4 ∧ reassemble (split_sequences 4 [seq3]) = SeqRecord.seq seq3.
Proof. split; [lia|]. apply (windower_reassemble 4 seq3). lia. Defined.


(** ** The aggregator: keys, order, comment lines, the last line *)

Lemma strip_comments_prefix (comments rest : list string) :
  Forall (λ l, startswith hash l = true) comments →
  strip_comments (comments ++ rest) = strip_comments rest.
Proof.
  induction 1 as [|c comments Hc _ IH]; [done|]. simpl. by rewrite Hc.
Qed.

Lemma strip_comments_hits (lines : list string) :
  Forall (λ l, startswith hash l = false) lines →
  strip_comments lines
  = match lines with [] => Raise IndexError | _ => Return lines end.
Proof. destruct 1 as [|line lines Hline _]; [done|]. simpl. by rewrite Hline. Qed.

Lemma Counter_loop_lookup (elems : list string) (key : string) :
  ∀ counter : Counter,
    foldl (λ counter elem, <[elem := S (count_of counter elem)]> counter)
      counter elems !! key
    = if decide (length (filter (λ e, e = key) elems) = 0)%nat
      then counter !! key
      else Some (count_of counter key
                 + length (filter (λ e, e = key) elems))%nat.
Proof.
  induction elems as [|elem elems IH]; intros counter; [done|].
  simpl. rewrite IH, filter_cons, count_of_insert, lookup_insert.
  destruct (decide (elem = key)) as [->|Hne]; simpl;
    repeat case_decide; try lia; try done; f_equal; lia.
Qed.

Lemma Counter_of_lookup (elems : list string) (key : string) :
  Counter_of elems !! key
  = if decide (length (filter (λ e, e = key) elems) = 0)%nat then None
    else Some (length (filter (λ e, e = key) elems)).
Proof.
  unfold Counter_of. rewrite Counter_loop_lookup. unfold count_of.
  by rewrite lookup_empty.
Qed.

Lemma length_filter_zero {A} (P : A → Prop) `{∀ x, Decision (P x)}
    (l : list A) :
  length (filter P l) = 0%nat ↔ Forall (λ x, ¬ P x) l.
Proof.
  induction l as [|x l IH]; [by split; [constructor|]|].
  rewrite filter_cons, Forall_cons. destruct (decide (P x)); simpl.
  - split; [lia|tauto].
  - rewrite IH. tauto.
Qed.

(** X6: only the comment lines at the head of the tool's output are
    dropped, and they change nothing: the aggregator gives the same
    result, counter or [IndexError], with and without them. *)
Theorem parse_results_comment_prefix (comments rest : list string) :
  Forall (λ l, startswith hash l = true) comments →
  parse_results (comments ++ rest) = parse_results rest.
Proof.
  intros Hcomments. unfold parse_results.
  by rewrite strip_comments_prefix.
Qed.

Lemma parse_results_comment_prefix_witness :
  Forall (λ l, startswith hash l = true) ["# MEGABLAST"; "# Query"]
  ∧ parse_results
      (["# MEGABLAST"; "# Query"] ++ ["seq1_2" +:+ String tab "chr1"])
    = parse_results ["seq1_2" +:+ String tab "chr1"].
Proof.
  assert (Forall (λ l, startswith hash l = true) ["# MEGABLAST"; "# Query"])
    as Hc by (repeat constructor).
  split; [exact Hc|].
  apply (parse_results_comment_prefix ["# MEGABLAST"; "# Query"]
           ["seq1_2" +:+ String tab "chr1"] Hc).
Defined.

(** X7: the counts do not depend on the order of the hit lines: two
    line lists without comment lines that are permutations of each other
    give the same counter. *)
Theorem parse_results_order (lines lines' : list string) :
  Forall (λ l, startswith hash l = false) lines →
  lines ≡ₚ lines' →
  parse_results lines = parse_results lines'.
Proof.
  intros Hlines Hperm.
  assert (Forall (λ l, startswith hash l = false) lines') as Hlines'
    by by rewrite <-Hperm.
  unfold parse_results. rewrite !strip_comments_hits by done.
  destruct lines as [|line lines].
  { apply Permutation_nil_l in Hperm. by subst lines'. }
  destruct lines' as [|line' lines'].
  { by apply Permutation_nil_r in Hperm. }
  f_equal. apply map_eq. intros key. rewrite !Counter_of_lookup.
  assert (length (filter (λ e, e = key) (first_field <$> line :: lines))
          = length (filter (λ e, e = key) (first_field <$> line' :: lines')))
    as -> by (by rewrite Hperm).
  reflexivity.
Qed.

Lemma parse_results_order_witness :
  Forall (λ l, startswith hash l = false)
    ["seq1_2" +:+ String tab "chr1"; "seq1_4" +:+ String tab "chr2"]
  ∧ ["seq1_2" +:+ String tab "chr1"; "seq1_4" +:+ String tab "chr2"]
    ≡ₚ ["seq1_4" +:+ String tab "chr2"; "seq1_2" +:+ String tab "chr1"]
  ∧ parse_results
      ["seq1_2" +:+ String tab "chr1"; "seq1_4" +:+ String tab "chr2"]
    = parse_results
        ["seq1_4" +:+ String tab "chr2"; "seq1_2" +:+ String tab "chr1"].
Proof.
  assert (Forall (λ l, startswith hash l = false)
            ["seq1_2" +:+ String tab "chr1"; "seq1_4" +:+ String tab "chr2"])
    as Hl by (repeat constructor).
  split; [exact Hl|]. split; [apply Permutation_swap|].
  apply (parse_results_order _ _ Hl), Permutation_swap.
Defined.

(** X8: the counter has an entry exactly for the identifiers that are
    the first field of some remaining line, and no entry holds 0: an
    identifier that no line mentions is absent from the dictionary (and
    reads 0 through the default), one that is mentioned has a count of at
    least 1. *)
Theorem parse_results_keys (comments : list string) (line : string)
    (rest : list string) :
  Forall (λ l, startswith hash l = true) comments →
  startswith hash line = false →
  ∃ counter : Counter,
    parse_results (comments ++ line :: rest) = Return counter
    ∧ ∀ id : string,
        (counter !! id = None ↔ id ∉ first_field <$> (line :: rest))
        ∧ (∀ n : nat, counter !! id = Some n → (1 ≤ n)%nat).
Proof.
  intros Hcomments Hline. eexists. split.
  { unfold parse_results. by rewrite strip_comments_app. }
  intros id. rewrite Counter_of_lookup.
  pose proof (length_filter_zero (λ e, e = id) (first_field <$> line :: rest))
    as Hzero.
  case_decide as Hcount.
  - split; [|done]. split; [|done]. intros _ Hin.
    apply Hzero in Hcount. rewrite Forall_forall in Hcount.
    by apply (Hcount id).
  - split; [|intros n Hn; apply (inj Some) in Hn; lia].
    split; [done|]. intros Hnotin.
    destruct Hcount. apply Hzero, Forall_forall. by intros x Hx ->.
Qed.

Lemma parse_results_keys_witness :
  Forall (λ l, startswith hash l = true) ["# MEGABLAST"]
  ∧ startswith hash ("seq1_2" +:+ String tab "chr1") = false
  ∧ ∃ counter : Counter,
      parse_results
        (["# MEGABLAST"] ++ ("seq1_2" +:+ String tab "chr1") :: [EmptyString])
      = Return counter
      ∧ ∀ id : string,
          (counter !! id = None
           ↔ id ∉ first_field
                    <$> (("seq1_2" +:+ String tab "chr1") :: [EmptyString]))
          ∧ (∀ n : nat, counter !! id = Some n → (1 ≤ n)%nat).
Proof.
  assert (Forall (λ l, startswith hash l = true) ["# MEGABLAST"]) as Hc
    by (repeat constructor).
  split; [exact Hc|]. split; [reflexivity|].
  apply (parse_results_keys ["# MEGABLAST"]
           ("seq1_2" +:+ String tab "chr1") [EmptyString] Hc).
  reflexivity.
Defined.

Lemma split_snoc_sep (sep : ascii) (s : string) :
  split sep (s +:+ String sep EmptyString) = split sep s ++ [EmptyString].
Proof.
  induction s as [|a s IH].
  - simpl. by rewrite bool_decide_eq_true_2.
  - rewrite append_cons. simpl. case_bool_decide; rewrite IH; [done|].
    destruct (split sep s) eqn:Hsplit; [|done].
    by destruct (split_nonempty sep s).
Qed.

Lemma endswith_snoc (c : ascii) (s : string) :
  endswith c s = true → ∃ s', s = s' +:+ String c EmptyString.
Proof.
  induction s as [|a s IH]; [done|]. simpl. destruct s as [|b s].
  - intros ->%bool_decide_eq_true. by exists EmptyString.
  - intros [s' Hs']%IH. exists (String a s'). by rewrite append_cons, <-Hs'.
Qed.

Lemma strip_comments_last_empty (lines : list string) :
  ∃ rest : list string,
    strip_comments (lines ++ [EmptyString]) = Return rest
    ∧ EmptyString ∈ rest.
Proof.
  induction lines as [|line lines IH]; simpl.
  - eexists. split; [done|]. apply list_elem_of_here.
  - destruct (startswith hash line); [done|].
    eexists. split; [done|]. rewrite elem_of_cons, elem_of_app.
    right. right. apply list_elem_of_here.
Qed.

Lemma join_split (sep : ascii) (s : string) :
  join (String sep EmptyString) (split sep s) = s.
Proof.
  induction s as [|a s IH]; [done|]. simpl.
  pose proof (split_nonempty sep s) as Hne.
  destruct (split sep s) as [|field fields]; [done|].
  case_bool_decide as Ha.
  - subst a. change (String sep (join (String sep "") (field :: fields))
                     = String sep s). by rewrite IH.
  - destruct fields as [|field' fields]; simpl in *; [by rewrite IH|].
    rewrite append_cons. by rewrite IH.
Qed.

(** X9: the lines [run_megablast] hands over are never all comments when
    the tool's output is empty or ends with a newline: the text after the
    last newline is an empty line, so [parse_results] returns a counter
    (no [IndexError]) and that counter always has an entry, of at least
    1, for the empty identifier. *)
Theorem parse_results_last_line (text : string) :
  text = EmptyString ∨ endswith newline text = true →
  ∃ counter : Counter,
    parse_results (split newline text) = Return counter
    ∧ (1 ≤ count_of counter EmptyString)%nat.
Proof.
  intros Htext.
  assert (∃ lines, split newline text = lines ++ [EmptyString])
    as [lines ->].
  { destruct Htext as [->|[s ->]%endswith_snoc]; [by exists []|].
    eexists. apply split_snoc_sep. }
  destruct (strip_comments_last_empty lines) as (rest & Hstrip & Hin).
  unfold parse_results. rewrite Hstrip. eexists. split; [done|].
  rewrite count_of_Counter_of, length_filter_fmap.
  assert (EmptyString
          ∈ filter (λ a, first_field a = EmptyString) rest) as Hfilter
    by by apply list_elem_of_filter.
  destruct (filter _ rest); [by apply elem_of_nil in Hfilter|simpl; lia].
Qed.

Lemma parse_results_last_line_witness :
  (example_output = EmptyString ∨ endswith newline example_output = true)
  ∧ ∃ counter : Counter,
      parse_results (split newline example_output) = Return counter
      ∧ (1 ≤ count_of counter EmptyString)%nat.
Proof.
  assert (example_output = EmptyString
          ∨ endswith newline example_output = true) as Htext
    by (right; reflexivity).
  split; [exact Htext|]. exact (parse_results_last_line example_output Htext).
Defined.

(** ** The search invoker: what it returns and how it fails *)

Lemma run_megablast_returns `{Environment} (sequence_file output_dir : string)
    (options : Namespace) (text : string) (w : world) :
  megablast (megablast_argv sequence_file options) (files w) = Output text →
  path_join output_dir "megablast_results.txt" ∉ dirs w →
  path_join output_dir "megablast_results.txt" ∉ locked w →
  run_megablast sequence_file output_dir options w
  = (Return (split newline text),
     set_files
       (insert (path_join output_dir "megablast_results.txt")
          (text +:+ String newline EmptyString))
       (add_stdout EmptyString
          (add_call (check_output_call (megablast_argv sequence_file options))
             (add_stdout EmptyString w)))).
Proof.
  intros Htool Hdir Hlocked.
  unfold run_megablast, bind, try_except, print, check_output. simpl.
  rewrite Htool. unfold open_w. simpl.
  rewrite bool_decide_eq_false_2, bool_decide_eq_false_2 by done. simpl.
  erewrite (for_each_print_to _ (λ line, line));
    [|simpl; apply lookup_insert_eq].
  rewrite list_fmap_id, unlines_split. unfold ret, set_files. simpl.
  by rewrite insert_insert_eq.
Qed.

(** X10: the lines [run_megablast] returns are the tool's output cut at
    its newlines: there is always at least one line, and joining the
    lines with newlines gives back the captured output, character for
    character. *)
Theorem run_megablast_lines_join `{Environment}
    (sequence_file output_dir : string) (options : Namespace)
    (lines : list string) (w w' : world) :
  run_megablast sequence_file output_dir options w = (Return lines, w') →
  lines ≠ []
  ∧ megablast (megablast_argv sequence_file options) (files w)
    = Output (join (String newline EmptyString) lines).
Proof.
  unfold run_megablast, bind at 1, try_except at 1, bind at 1, print at 1.
  unfold bind at 1, check_output. simpl.
  destruct (megablast _ _) as [| | |text] eqn:Htool; simpl; try done.
  unfold bind at 1, try_except, open_w. simpl.
  destruct (_ || _); simpl; [done|].
  unfold bind at 1. destruct (for_each _ _ _) as [[[]|e] w1]; [|done].
  unfold bind, close, ret. intros [= <- _].
  split; [apply split_nonempty|by rewrite join_split].
Qed.

Lemma run_megablast_lines_join_witness :
  @run_megablast (canned_environment example_output)
    "out/megablast_input.fasta" "out" (example_args true 3) search_world
  = (Return (split newline example_output),
     snd (@run_megablast (canned_environment example_output)
            "out/megablast_input.fasta" "out" (example_args true 3)
            search_world))
  ∧ split newline example_output ≠ []
  ∧ @megablast (canned_environment example_output)
      (megablast_argv "out/megablast_input.fasta" (example_args true 3))
      (files search_world)
    = Output (join (String newline EmptyString)
                (split newline example_output)).
Proof.
  assert (@run_megablast (canned_environment example_output)
            "out/megablast_input.fasta" "out" (example_args true 3)
            search_world
          = (Return (split newline example_output),
             snd (@run_megablast (canned_environment example_output)
                    "out/megablast_input.fasta" "out" (example_args true 3)
                    search_world))) as Hrun
    by (vm_compute; reflexivity).
  split; [exact Hrun|].
  exact (@run_megablast_lines_join (canned_environment example_output)
           _ _ _ _ _ _ Hrun).
Defined.

(** X11: the ways [run_megablast] fails.  When it raises, the exception
    is the [ProgramError] "megablast: command not found" (the tool cannot
    be started), the [ProgramError] "megablast: problem with megablast"
    (the tool exits with a non-zero status), a [KeyboardInterrupt] (the
    tool is interrupted; it is let through), or the [ProgramError] "can't
    write file to <output_dir>" (the results file cannot be opened); no
    other exception leaves the function, and in every one of these cases
    no file has been written or changed. *)
Theorem run_megablast_failures `{Environment}
    (sequence_file output_dir : string) (options : Namespace) (e : exn)
    (w w' : world) :
  run_megablast sequence_file output_dir options w = (Raise e, w') →
  files w' = files w
  ∧ (megablast (megablast_argv sequence_file options) (files w) = NotFound
     ∧ e = ProgramError "megablast: command not found"
     ∨ megablast (megablast_argv sequence_file options) (files w)
       = NonZeroExit
       ∧ e = ProgramError "megablast: problem with megablast"
     ∨ megablast (megablast_argv sequence_file options) (files w)
       = Interrupted
       ∧ e = KeyboardInterrupt
     ∨ (∃ text,
          megablast (megablast_argv sequence_file options) (files w)
          = Output text)
       ∧ (path_join output_dir "megablast_results.txt" ∈ dirs w
          ∨ path_join output_dir "megablast_results.txt" ∈ locked w)
       ∧ e = ProgramError ("can't write file to " +:+ output_dir)).
Proof.
  unfold run_megablast, bind at 1, try_except at 1, bind at 1, print at 1.
  unfold bind at 1, check_output. simpl.
  destruct (megablast _ _) as [| | |text] eqn:Htool; simpl;
    try (intros [= <- <-]; split; [done|]; tauto).
  unfold bind at 1, try_except, open_w. simpl.
  destruct (bool_decide (_ ∈ dirs w)) eqn:Hdir;
    [|destruct (bool_decide (_ ∈ locked w)) eqn:Hlocked]; simpl.
  - intros [= <- <-]. split; [done|]. do 3 right.
    apply bool_decide_eq_true in Hdir. eauto.
  - intros [= <- <-]. split; [done|]. do 3 right.
    apply bool_decide_eq_true in Hlocked. eauto.
  - unfold bind at 1.
    erewrite (for_each_print_to _ (λ line, line));
      [|simpl; apply lookup_insert_eq].
    discriminate.
Qed.

Lemma run_megablast_failures_witness :
  @run_megablast (fixed_environment NonZeroExit)
    "out/megablast_input.fasta" "out" (example_args true 3) search_world
  = (Raise (ProgramError "megablast: problem with megablast"),
     snd (@run_megablast (fixed_environment NonZeroExit)
            "out/megablast_input.fasta" "out" (example_args true 3)
            search_world))
  ∧ files (snd (@run_megablast (fixed_environment NonZeroExit)
                  "out/megablast_input.fasta" "out" (example_args true 3)
                  search_world))
    = files search_world.
Proof.
  assert (@run_megablast (fixed_environment NonZeroExit)
            "out/megablast_input.fasta" "out" (example_args true 3)
            search_world
          = (Raise (ProgramError "megablast: problem with megablast"),
             snd (@run_megablast (fixed_environment NonZeroExit)
                    "out/megablast_input.fasta" "out" (example_args true 3)
                    search_world))) as Hrun
    by (vm_compute; reflexivity).
  split; [exact Hrun|].
  exact (proj1 (@run_megablast_failures (fixed_environment NonZeroExit)
                  _ _ _ _ _ _ Hrun)).
Defined.

(** ** The report generator: failures and the hits it ignores *)

Lemma for_each_ext {A} (l : list A) (f g : A → M unit) :
  (∀ x w, x ∈ l → f x w = g x w) →
  ∀ w, for_each l f w = for_each l g w.
Proof.
  induction l as [|x l IH]; intros Hfg w; [done|]. simpl. unfold bind.
  rewrite (Hfg x w) by apply list_elem_of_here.
  destruct (g x w) as [[[]|e] w1]; [|done].
  apply IH. intros y w2 Hy. apply Hfg. by apply list_elem_of_further.
Qed.

Lemma generate_final_output_returns `{Environment} (results : Counter)
    (sequence_file output_dir content : string) (w : world) :
  path_join output_dir "final_report.txt" ∉ dirs w →
  path_join output_dir "final_report.txt" ∉ locked w →
  sequence_file ≠ path_join output_dir "final_report.txt" →
  files w !! sequence_file = Some content →
  generate_final_output results sequence_file output_dir w
  = (Return (),
     set_files
       (insert (path_join output_dir "final_report.txt")
          (unlines
             ((λ r, join (String tab EmptyString)
                      [SeqRecord.id r; SeqRecord.seq r;
                       str (Z.of_nat (count_of results (SeqRecord.id r)))])
                <$> fasta_parse content)))
       (add_call (SeqIO_parse_call sequence_file) w)).
Proof.
  intros Hdir Hlocked Hne Hcontent.
  unfold generate_final_output, bind, try_except, open_w.
  rewrite bool_decide_eq_false_2, bool_decide_eq_false_2 by done. simpl.
  unfold SeqIO_parse. simpl. rewrite lookup_insert_ne by done.
  rewrite Hcontent.
  erewrite for_each_print_to; [|simpl; apply lookup_insert_eq].
  unfold close, ret, set_files. simpl. by rewrite insert_insert_eq.
Qed.

(** X12: the ways [generate_final_output] fails.  When it raises, either
    the report cannot be opened for writing, the exception is the
    [ProgramError] "can't write to <output_dir>" and nothing at all has
    happened (the sequence file has not been read); or the sequence file
    does not exist, the exception is an [IOError], and the report file has
    already been created or emptied: a report of an earlier run is lost
    although no new one is written. *)
Theorem generate_final_output_failures `{Environment} (results : Counter)
    (sequence_file output_dir : string) (e : exn) (w w' : world) :
  generate_final_output results sequence_file output_dir w = (Raise e, w') →
  (path_join output_dir "final_report.txt" ∈ dirs w
   ∨ path_join output_dir "final_report.txt" ∈ locked w)
  ∧ e = ProgramError ("can't write to " +:+ output_dir)
  ∧ w' = w
  ∨ (path_join output_dir "final_report.txt" ∉ dirs w)
    ∧ (path_join output_dir "final_report.txt" ∉ locked w)
    ∧ files w !! sequence_file = None
    ∧ sequence_file ≠ path_join output_dir "final_report.txt"
    ∧ e = IOError
    ∧ files w'
      = <[path_join output_dir "final_report.txt" := EmptyString]> (files w).
Proof.
  unfold generate_final_output, bind at 1, try_except, open_w.
  destruct (bool_decide (_ ∈ dirs w)) eqn:Hdir;
    [|destruct (bool_decide (_ ∈ locked w)) eqn:Hlocked]; simpl.
  - intros [= <- <-]. left. apply bool_decide_eq_true in Hdir. eauto.
  - intros [= <- <-]. left. apply bool_decide_eq_true in Hlocked. eauto.
  - apply bool_decide_eq_false in Hdir, Hlocked.
    unfold bind at 1, SeqIO_parse. simpl.
    destruct (decide (sequence_file
                      = path_join output_dir "final_report.txt"))
      as [->|Hne].
    + rewrite lookup_insert_eq. unfold bind at 1.
      erewrite for_each_print_to; [|simpl; apply lookup_insert_eq].
      discriminate.
    + rewrite lookup_insert_ne by done.
      destruct (files w !! sequence_file) as [content|] eqn:Hcontent.
      * unfold bind at 1.
        erewrite for_each_print_to; [|simpl; apply lookup_insert_eq].
        discriminate.
      * intros [= <- <-]. right. done.
Qed.

Lemma generate_final_output_failures_witness :
  @generate_final_output (canned_environment example_output)
    example_counter "out/megablast_input.fasta" "out" windower_world
  = (Raise IOError,
     snd (@generate_final_output (canned_environment example_output)
            example_counter "out/megablast_input.fasta" "out" windower_world))
  ∧ ((path_join "out" "final_report.txt" ∈ dirs windower_world
      ∨ path_join "out" "final_report.txt" ∈ locked windower_world)
     ∧ IOError = ProgramError ("can't write to " +:+ "out")
     ∧ snd (@generate_final_output (canned_environment example_output)
              example_counter "out/megablast_input.fasta" "out"
              windower_world)
       = windower_world
     ∨ (path_join "out" "final_report.txt" ∉ dirs windower_world)
       ∧ (path_join "out" "final_report.txt" ∉ locked windower_world)
       ∧ files windower_world !! "out/megablast_input.fasta" = None
       ∧ "out/megablast_input.fasta" ≠ path_join "out" "final_report.txt"
       ∧ IOError = IOError
       ∧ files
           (snd (@generate_final_output (canned_environment example_output)
                   example_counter "out/megablast_input.fasta" "out"
                   windower_world))
         = <[path_join "out" "final_report.txt" := EmptyString]>
             (files windower_world)).
Proof.
  assert (@generate_final_output (canned_environment example_output)
            example_counter "out/megablast_input.fasta" "out" windower_world
          = (Raise IOError,
             snd (@generate_final_output (canned_environment example_output)
                    example_counter "out/megablast_input.fasta" "out"
                    windower_world))) as Hrun
    by (vm_compute; reflexivity).
  split; [exact Hrun|].
  exact (@generate_final_output_failures (canned_environment example_output)
           _ _ _ _ _ _ Hrun).
Defined.

(** The other failure: the output directory exists, the sequence file
    too, but the report cannot be opened. *)
Example generate_final_output_locked :
  @generate_final_output (canned_environment example_output)
    example_counter "in.fa" "out" readonly_world
  = (Raise (ProgramError "can't write to out"), readonly_world).
Proof. vm_compute. reflexivity. Qed.

(** X13: hits for identifiers that are not in the sequence file are
    ignored: the report generator looks the counter up at the identifiers
    of the file's records only, so two counters that agree on these
    identifiers give the same run, report and all, whatever else they
    count. *)
Theorem generate_final_output_ignores_other_ids `{Environment}
    (results results' : Counter) (sequence_file output_dir content : string)
    (w : world) :
  files w !! sequence_file = Some content →
  sequence_file ≠ path_join output_dir "final_report.txt" →
  (∀ r, r ∈ fasta_parse content →
        count_of results (SeqRecord.id r)
        = count_of results' (SeqRecord.id r)) →
  generate_final_output results sequence_file output_dir w
  = generate_final_output results' sequence_file output_dir w.
Proof.
  intros Hcontent Hne Hagree.
  unfold generate_final_output, bind, try_except, open_w.
  destruct (_ || _); simpl; [done|].
  unfold SeqIO_parse. simpl. rewrite lookup_insert_ne, Hcontent by done.
  erewrite for_each_ext; [reflexivity|].
  intros r w1 Hr. simpl. by rewrite (Hagree r Hr).
Qed.

Lemma generate_final_output_ignores_other_ids_witness :
  files search_world !! "out/megablast_input.fasta"
  = Some (simple_format (split_sequences 3 [seq1]))
  ∧ "out/megablast_input.fasta" ≠ path_join "out" "final_report.txt"
  ∧ (∀ r, r ∈ simple_parse (simple_format (split_sequences 3 [seq1])) →
          count_of example_counter (SeqRecord.id r)
          = count_of (<["other" := 7%nat]> example_counter) (SeqRecord.id r))
  ∧ @generate_final_output (canned_environment example_output)
      example_counter "out/megablast_input.fasta" "out" search_world
    = @generate_final_output (canned_environment example_output)
        (<["other" := 7%nat]> example_counter) "out/megablast_input.fasta"
        "out" search_world.
Proof.
  assert (files search_world !! "out/megablast_input.fasta"
          = Some (simple_format (split_sequences 3 [seq1]))) as H1
    by (vm_compute; reflexivity).
  assert ("out/megablast_input.fasta" ≠ path_join "out" "final_report.txt")
    as H2 by (vm_compute; discriminate).
  assert (∀ r, r ∈ simple_parse (simple_format (split_sequences 3 [seq1])) →
               count_of example_counter (SeqRecord.id r)
               = count_of (<["other" := 7%nat]> example_counter)
                   (SeqRecord.id r)) as H3.
  { intros r Hr. unfold count_of. rewrite lookup_insert_ne; [done|].
    assert (Forall (λ r, "other" ≠ SeqRecord.id r)
              (simple_parse (simple_format (split_sequences 3 [seq1]))))
      as Hids by (vm_compute; repeat constructor; discriminate).
    rewrite Forall_forall in Hids. by apply Hids. }
  repeat (split; [assumption|]).
  exact (@generate_final_output_ignores_other_ids
           (canned_environment example_output) _ _ _ _ _ _ H1 H2 H3).
Defined.

(** ** The whole program *)

Lemma check_args_returns (args : Namespace) (w : world) (content : string) :
  files w !! input args = Some content →
  (window args = true → 0 ≤ window_length args) →
  check_args args w = (Return true, w).
Proof.
  intros Hinput Hwindow. unfold check_args, bind, isfile.
  rewrite Hinput, bool_decide_eq_true_2 by done. simpl.
  destruct (window args); [|done]. simpl.
  by destruct (Z.ltb_spec (window_length args) 0); [specialize (Hwindow eq_refl); lia|].
Qed.

Lemma main_body_prepared `{Environment} (args : Namespace) (w : world)
    (content : string) :
  startable args w content →
  ∃ w1 : world,
    main_body args w = main_report args w1
    ∧ files w1
      = <[path_join (output_dir args) "megablast_input.fasta" :=
            sequence_content args content]> (files w)
    ∧ (∀ p, p ∈ dirs w1 ↔ p = output_dir args ∨ p ∈ dirs w)
    ∧ locked w1 = locked w
    ∧ stderr w1 = stderr w.
Proof.
  intros (Hinput & Hwindow & Hout & Hdir & Hlocked & Hne).
  assert (∃ w0, when (negb (bool_decide (output_dir args ∈ dirs w)))
                  (mkdir (output_dir args))
                  (add_stdout ("pymegablast version " +:+ version) w)
                = (Return (), w0)
                ∧ files w0 = files w ∧ locked w0 = locked w
                ∧ stderr w0 = stderr w
                ∧ (∀ p, p ∈ dirs w0 ↔ p = output_dir args ∨ p ∈ dirs w))
    as (w0 & Hmkdir & Hfiles & Hlock & Herr & Hdirs).
  { case_bool_decide as Hisdir; simpl.
    - eexists. repeat (split; [reflexivity|]). simpl. intros p.
      split; [auto|]. by intros [->|?].
    - destruct Hout as [?|[Hnofile Hfree]]; [done|].
      unfold mkdir. simpl. rewrite Hnofile.
      rewrite !bool_decide_eq_false_2 by (done || by inversion 1). simpl.
      eexists. repeat (split; [reflexivity|]). simpl. intros p.
      by rewrite elem_of_union, elem_of_singleton. }
  assert (path_join (output_dir args) "megablast_input.fasta" ∉ dirs w0)
    as Hdir0.
  { rewrite Hdirs. intros [Heq|?]; [|done].
    by apply path_join_ne_dir in Heq. }
  unfold main_body. unfold bind at 1.
  rewrite (check_args_returns args w content) by done.
  unfold bind at 1, print at 1. unfold bind at 1, isdir at 1. simpl.
  unfold bind at 1. rewrite Hmkdir. cbv zeta. unfold bind at 1.
  unfold sequence_content. destruct (window args).
  - unfold split_fasta_sequences, bind at 1, SeqIO_parse, SeqIO_write. simpl.
    rewrite Hfiles, Hinput.
    rewrite (bool_decide_eq_false_2 (_ ∈ dirs w0)) by done.
    rewrite (bool_decide_eq_false_2 (_ ∈ locked w0)) by (by rewrite Hlock).
    simpl. eexists. split; [reflexivity|]. simpl. by rewrite Hfiles.
  - unfold copyfile. simpl. rewrite Hfiles, Hinput.
    rewrite (bool_decide_eq_false_2 (_ = _)) by (by apply Hne).
    rewrite (bool_decide_eq_false_2 (_ ∈ dirs w0)) by done.
    rewrite (bool_decide_eq_false_2 (_ ∈ locked w0)) by (by rewrite Hlock).
    simpl. eexists. split; [reflexivity|]. simpl. by rewrite Hfiles.
Qed.

(** X14: a missing input file stops everything: whatever the other
    options, [main] ends with status 2, the message "<input>: no such
    file" is the one thing added to the standard error, and nothing else
    has happened (no directory made, no file written, no tool run). *)
Theorem main_missing_input `{Environment} (args : Namespace) (w : world) :
  files w !! input args = None →
  main args w = (Exit 2, add_stderr (input args +:+ ": no such file") w).
Proof.
  intros Hinput. unfold main, main_body, bind at 1, check_args, bind, isfile.
  rewrite Hinput. by rewrite bool_decide_eq_false_2 by by inversion 1.
Qed.

Lemma main_missing_input_witness :
  files empty_world !! input (example_args true (-5)) = None
  ∧ @main (canned_environment example_output) (example_args true (-5))
      empty_world
    = (Exit 2,
       add_stderr (input (example_args true (-5)) +:+ ": no such file")
         empty_world).
Proof.
  split; [reflexivity|].
  exact (@main_missing_input (canned_environment example_output)
           (example_args true (-5)) empty_world eq_refl).
Defined.

Lemma run_megablast_no_output `{Environment}
    (sequence_file output_dir : string) (options : Namespace) (w : world) :
  match megablast (megablast_argv sequence_file options) (files w) with
  | Output _ => True
  | outcome =>
      run_megablast sequence_file output_dir options w
      = (Raise
           match outcome with
           | NotFound => ProgramError "megablast: command not found"
           | NonZeroExit => ProgramError "megablast: problem with megablast"
           | _ => KeyboardInterrupt
           end,
         add_call (check_output_call (megablast_argv sequence_file options))
           (add_stdout EmptyString w))
  end.
Proof.
  destruct (megablast _ _) eqn:Htool; [| | |done];
    unfold run_megablast, bind at 1, try_except at 1, bind at 1, print at 1;
    unfold bind at 1, check_output; simpl; by rewrite Htool.
Qed.

Lemma results_file_writable `{Environment} (args : Namespace) (name : string)
    (w w1 : world) :
  startswith "/"%char name = false → name ≠ EmptyString →
  writable (output_dir args) name w →
  (∀ p, p ∈ dirs w1 ↔ p = output_dir args ∨ p ∈ dirs w) →
  locked w1 = locked w →
  writable (output_dir args) name w1.
Proof.
  intros Hrel Hname [Hdir Hlocked] Hdirs Hlock. split; [|by rewrite Hlock].
  rewrite Hdirs. intros [Heq|?]; [|done]. by apply path_join_ne_dir in Heq.
Qed.

(** X15: when the first stage succeeds and the tool cannot be started
    or exits with a non-zero status, [main] ends with status 2 and one
    message on the standard error, "megablast: command not found" or
    "megablast: problem with megablast"; the sequence file has been
    written, but neither the results file nor the report: apart from the
    sequence file the files are those of the start. *)
Theorem main_tool_failure `{Environment} (args : Namespace) (w : world)
    (content : string) (outcome : tool_outcome) :
  startable args w content →
  megablast
    (megablast_argv (path_join (output_dir args) "megablast_input.fasta")
       args)
    (<[path_join (output_dir args) "megablast_input.fasta" :=
         sequence_content args content]> (files w))
  = outcome →
  outcome = NotFound ∨ outcome = NonZeroExit →
  ∃ w' : world,
    main args w = (Exit 2, w')
    ∧ stderr w'
      = stderr w
        ++ [match outcome with
            | NotFound => "megablast: command not found"
            | _ => "megablast: problem with megablast"
            end]
    ∧ files w'
      = <[path_join (output_dir args) "megablast_input.fasta" :=
            sequence_content args content]> (files w).
Proof.
  intros Hstart Htool Houtcome.
  destruct (main_body_prepared args w content Hstart)
    as (w1 & Hbody & Hfiles & _ & _ & Herr).
  unfold main. rewrite Hbody. unfold main_report. cbv zeta. unfold bind at 1.
  pose proof (run_megablast_no_output
                (path_join (output_dir args) "megablast_input.fasta")
                (output_dir args) args w1) as Hrun.
  rewrite Hfiles, Htool in Hrun.
  destruct Houtcome as [-> | ->]; rewrite Hrun; simpl;
    (eexists; split; [reflexivity|]; simpl; by rewrite Herr, Hfiles).
Qed.

Lemma main_tool_failure_witness :
  startable (example_args true 3) example_world example_input
  ∧ @megablast (fixed_environment NotFound)
      (megablast_argv
         (path_join (output_dir (example_args true 3))
            "megablast_input.fasta")
         (example_args true 3))
      (<[path_join (output_dir (example_args true 3))
           "megablast_input.fasta" :=
           @sequence_content (fixed_environment NotFound)
             (example_args true 3) example_input]> (files example_world))
    = NotFound
  ∧ (NotFound = NotFound ∨ NotFound = NonZeroExit)
  ∧ ∃ w' : world,
      @main (fixed_environment NotFound) (example_args true 3) example_world
      = (Exit 2, w')
      ∧ stderr w'
        = stderr example_world ++ ["megablast: command not found"]
      ∧ files w'
        = <[path_join (output_dir (example_args true 3))
              "megablast_input.fasta" :=
              @sequence_content (fixed_environment NotFound)
                (example_args true 3) example_input]> (files example_world).
Proof.
  assert (startable (example_args true 3) example_world example_input)
    as Hstart.
  { unfold startable. split; [reflexivity|].
    split; [intros _; vm_compute; discriminate|].
    split; [right; split; [reflexivity|]|split; [|split]].
    - apply (bool_decide_unpack _). vm_compute. reflexivity.
    - apply (bool_decide_unpack _). vm_compute. reflexivity.
    - apply (bool_decide_unpack _). vm_compute. reflexivity.
    - discriminate. }
  split; [exact Hstart|]. split; [reflexivity|]. split; [by left|].
  exact (@main_tool_failure (fixed_environment NotFound)
           (example_args true 3) example_world example_input NotFound
           Hstart eq_refl (or_introl eq_refl)).
Defined.

(** X16: when the tool is interrupted, [main] ends with status 0 and the
    message "Cancelled by user" on the standard error, and the final
    stages never run: the sequence file has been written, the results
    file and the report have not. *)
Theorem main_cancelled `{Environment} (args : Namespace) (w : world)
    (content : string) :
  startable args w content →
  megablast
    (megablast_argv (path_join (output_dir args) "megablast_input.fasta")
       args)
    (<[path_join (output_dir args) "megablast_input.fasta" :=
         sequence_content args content]> (files w))
  = Interrupted →
  ∃ w' : world,
    main args w = (Exit 0, w')
    ∧ stderr w' = stderr w ++ ["Cancelled by user"]
    ∧ files w'
      = <[path_join (output_dir args) "megablast_input.fasta" :=
            sequence_content args content]> (files w).
Proof.
  intros Hstart Htool.
  destruct (main_body_prepared args w content Hstart)
    as (w1 & Hbody & Hfiles & _ & _ & Herr).
  unfold main. rewrite Hbody. unfold main_report. cbv zeta. unfold bind at 1.
  pose proof (run_megablast_no_output
                (path_join (output_dir args) "megablast_input.fasta")
                (output_dir args) args w1) as Hrun.
  rewrite Hfiles, Htool in Hrun. rewrite Hrun. simpl.
  eexists. split; [reflexivity|]. simpl. by rewrite Herr, Hfiles.
Qed.

Lemma main_cancelled_witness :
  startable (example_args false 20) example_world example_input
  ∧ @megablast (fixed_environment Interrupted)
      (megablast_argv
         (path_join (output_dir (example_args false 20))
            "megablast_input.fasta")
         (example_args false 20))
      (<[path_join (output_dir (example_args false 20))
           "megablast_input.fasta" :=
           @sequence_content (fixed_environment Interrupted)
             (example_args false 20) example_input]> (files example_world))
    = Interrupted
  ∧ ∃ w' : world,
      @main (fixed_environment Interrupted) (example_args false 20)
        example_world
      = (Exit 0, w')
      ∧ stderr w' = stderr example_world ++ ["Cancelled by user"]
      ∧ files w'
        = <[path_join (output_dir (example_args false 20))
              "megablast_input.fasta" :=
              @sequence_content (fixed_environment Interrupted)
                (example_args false 20) example_input]>
            (files example_world).
Proof.
  assert (startable (example_args false 20) example_world example_input)
    as Hstart.
  { unfold startable. split; [reflexivity|]. split; [discriminate|].
    split; [right; split; [reflexivity|]|split; [|split]].
    - apply (bool_decide_unpack _). vm_compute. reflexivity.
    - apply (bool_decide_unpack _). vm_compute. reflexivity.
    - apply (bool_decide_unpack _). vm_compute. reflexivity.
    - intros _. vm_compute. discriminate. }
  split; [exact Hstart|]. split; [reflexivity|].
  exact (@main_cancelled (fixed_environment Interrupted)
           (example_args false 20) example_world example_input
           Hstart eq_refl).
Defined.

(** X17: a complete run.  When the first stage can run, the tool prints
    [text], the results file and the report can be written, and [text]
    has a line that is not a comment (so that the aggregator returns a
    counter), [main] ends with status 0, writes nothing to the standard
    error, and leaves exactly three new or replaced files in the output
    directory: the sequence file (the input, or its windows), the results
    file (the tool's output and a newline) and the report, which has one
    line per record of the sequence file, read back with the FASTA
    reader, with the count the aggregator found for it; every other file
    is as it was. *)
Theorem main_complete_run `{Environment} (args : Namespace) (w : world)
    (content text : string) (counter : Counter) :
  startable args w content →
  writable (output_dir args) "megablast_results.txt" w →
  writable (output_dir args) "final_report.txt" w →
  megablast
    (megablast_argv (path_join (output_dir args) "megablast_input.fasta")
       args)
    (<[path_join (output_dir args) "megablast_input.fasta" :=
         sequence_content args content]> (files w))
  = Output text →
  parse_results (split newline text) = Return counter →
  ∃ w' : world,
    main args w = (Exit 0, w')
    ∧ stderr w' = stderr w
    ∧ files w'
      = <[path_join (output_dir args) "final_report.txt" :=
            unlines
              (report_line counter
                 <$> fasta_parse (sequence_content args content))]>
          (<[path_join (output_dir args) "megablast_results.txt" :=
               text +:+ String newline EmptyString]>
             (<[path_join (output_dir args) "megablast_input.fasta" :=
                  sequence_content args content]> (files w))).
Proof.
  intros Hstart Hresults Hreport Htool Hparse.
  destruct (main_body_prepared args w content Hstart)
    as (w1 & Hbody & Hfiles & Hdirs & Hlock & Herr).
  destruct (results_file_writable args "megablast_results.txt" w w1)
    as [Hrdir Hrlock]; [done..|].
  destruct (results_file_writable args "final_report.txt" w w1)
    as [Hfdir Hflock]; [done..|].
  unfold main. rewrite Hbody. unfold main_report. cbv zeta. unfold bind at 1.
  rewrite (run_megablast_returns _ _ _ text) by (by rewrite ?Hfiles).
  unfold bind at 1, lift. rewrite Hparse.
  erewrite generate_final_output_returns; [|done|done| |].
  - eexists. split; [reflexivity|]. simpl. by rewrite Herr, Hfiles.
  - intros Heq. by apply path_join_inj in Heq.
  - simpl. rewrite lookup_insert_ne, Hfiles, lookup_insert_eq; [done|].
    intros Heq. by apply path_join_inj in Heq.
Qed.

Lemma main_complete_run_witness :
  startable (example_args true 3) example_world example_input
  ∧ writable (output_dir (example_args true 3)) "megablast_results.txt"
      example_world
  ∧ writable (output_dir (example_args true 3)) "final_report.txt"
      example_world
  ∧ @megablast (canned_environment example_output)
      (megablast_argv
         (path_join (output_dir (example_args true 3))
            "megablast_input.fasta")
         (example_args true 3))
      (<[path_join (output_dir (example_args true 3))
           "megablast_input.fasta" :=
           @sequence_content (canned_environment example_output)
             (example_args true 3) example_input]> (files example_world))
    = Output example_output
  ∧ parse_results (split newline example_output)
    = Return (Counter_of ["seq1_2"; EmptyString])
  ∧ ∃ w' : world,
      @main (canned_environment example_output) (example_args true 3)
        example_world
      = (Exit 0, w')
      ∧ stderr w' = stderr example_world
      ∧ files w'
        = <[path_join (output_dir (example_args true 3))
              "final_report.txt" :=
              unlines
                (report_line (Counter_of ["seq1_2"; EmptyString])
                   <$> @fasta_parse (canned_environment example_output)
                         (@sequence_content
                            (canned_environment example_output)
                            (example_args true 3) example_input))]>
            (<[path_join (output_dir (example_args true 3))
                 "megablast_results.txt" :=
                 example_output +:+ String newline EmptyString]>
               (<[path_join (output_dir (example_args true 3))
                    "megablast_input.fasta" :=
                    @sequence_content (canned_environment example_output)
                      (example_args true 3) example_input]>
                  (files example_world))).
Proof.
  assert (startable (example_args true 3) example_world example_input)
    as Hstart.
  { unfold startable. split; [reflexivity|].
    split; [intros _; vm_compute; discriminate|].
    split; [right; split; [reflexivity|]|split; [|split]].
    - apply (bool_decide_unpack _). vm_compute. reflexivity.
    - apply (bool_decide_unpack _). vm_compute. reflexivity.
    - apply (bool_decide_unpack _). vm_compute. reflexivity.
    - discriminate. }
  assert (writable (output_dir (example_args true 3))
            "megablast_results.txt" example_world) as Hresults.
  { split; apply (bool_decide_unpack _); vm_compute; reflexivity. }
  assert (writable (output_dir (example_args true 3)) "final_report.txt"
            example_world) as Hreport.
  { split; apply (bool_decide_unpack _); vm_compute; reflexivity. }
  assert (parse_results (split newline example_output)
          = Return (Counter_of ["seq1_2"; EmptyString])) as Hparse
    by reflexivity.
  split; [exact Hstart|]. split; [exact Hresults|]. split; [exact Hreport|].
  split; [reflexivity|]. split; [exact Hparse|].
  exact (@main_complete_run (canned_environment example_output)
           (example_args true 3) example_world example_input example_output
           (Counter_of ["seq1_2"; EmptyString])
           Hstart Hresults Hreport eq_refl Hparse).
Defined.

(** The run of the documentation: [ACTGAC] cut with [w = 3], the tool
    reporting [seq1_2] twice. *)
Example main_ACTGAC :
  files
    (snd (@main
            (canned_environment
               ("seq1_2" +:+ String tab ("chr1" +:+ String newline
                  ("seq1_2" +:+ String tab ("chr2"
                     +:+ String newline EmptyString)))))
            (example_args true 3) example_world))
  !! "out/final_report.txt"
  = Some (unlines ["seq1_1" +:+ String tab ("ACT" +:+ String tab "0");
                   "seq1_2" +:+ String tab ("CTG" +:+ String tab "2");
                   "seq1_3" +:+ String tab ("TGA" +:+ String tab "0");
                   "seq1_4" +:+ String tab ("GAC" +:+ String tab "0")]).
Proof. vm_compute. reflexivity. Qed.

(** ** What [main] touches *)

Global Instance dirs_within_preorder (dir : string) :
  PreOrder (dirs_within dir).
Proof.
  split.
  - intros w. unfold dirs_within. split; [done|]. split; [|done].
    apply union_subseteq_r.
  - intros w1 w2 w3 (H12 & H21 & Hl12) (H23 & H32 & Hl23).
    split; [by etrans|]. split; [|congruence].
    intros p Hp. apply H32, elem_of_union in Hp as [Hp|Hp].
    + by apply elem_of_union_l.
    + by apply H21.
Qed.

Ltac keeps_dirs :=
  intros w; unfold dirs_within; repeat case_match; simpl; set_solver.

Lemma isfile_dirs_within dir path : preserves (dirs_within dir) (isfile path).
Proof. unfold isfile. keeps_dirs. Qed.

Lemma isdir_dirs_within dir path : preserves (dirs_within dir) (isdir path).
Proof. unfold isdir. keeps_dirs. Qed.

Lemma print_dirs_within dir line : preserves (dirs_within dir) (print line).
Proof. unfold print. keeps_dirs. Qed.

Lemma mkdir_dirs_within dir : preserves (dirs_within dir) (mkdir dir).
Proof. unfold mkdir. keeps_dirs. Qed.

Lemma open_w_dirs_within dir path : preserves (dirs_within dir) (open_w path).
Proof. unfold open_w. keeps_dirs. Qed.

Lemma print_to_dirs_within dir o_file line :
  preserves (dirs_within dir) (print_to o_file line).
Proof. unfold print_to. keeps_dirs. Qed.

Lemma copyfile_dirs_within dir src dst :
  preserves (dirs_within dir) (copyfile src dst).
Proof. unfold copyfile. keeps_dirs. Qed.

Lemma SeqIO_parse_dirs_within `{Environment} dir path :
  preserves (dirs_within dir) (SeqIO_parse path).
Proof. unfold SeqIO_parse. keeps_dirs. Qed.

Lemma SeqIO_write_dirs_within `{Environment} dir records path :
  preserves (dirs_within dir) (SeqIO_write records path).
Proof. unfold SeqIO_write. keeps_dirs. Qed.

Lemma check_output_dirs_within `{Environment} dir argv :
  preserves (dirs_within dir) (check_output argv).
Proof. unfold check_output. keeps_dirs. Qed.

Lemma copyfile_same_file k src dst :
  k ≠ dst → preserves (same_file k) (copyfile src dst).
Proof.
  intros Hk w. unfold copyfile, same_file. repeat case_match; simpl; try done.
  by rewrite lookup_insert_ne.
Qed.

Lemma SeqIO_write_same_file `{Environment} k records path :
  k ≠ path → preserves (same_file k) (SeqIO_write records path).
Proof.
  intros Hk w. unfold SeqIO_write, same_file. repeat case_match; simpl;
    try done. by rewrite lookup_insert_ne.
Qed.

#[local] Hint Resolve isfile_dirs_within isdir_dirs_within print_dirs_within
  mkdir_dirs_within open_w_dirs_within print_to_dirs_within
  copyfile_dirs_within SeqIO_parse_dirs_within SeqIO_write_dirs_within
  check_output_dirs_within copyfile_same_file SeqIO_write_same_file : frame.

Lemma main_body_dirs_within `{Environment} (args : Namespace) :
  preserves (dirs_within (output_dir args)) (main_body args).
Proof.
  unfold main_body, check_args, split_fasta_sequences. cbv zeta.
  repeat (apply preserves_bind; [apply _| |intros ?]);
    try (destruct (window args)); frame; auto with frame.
Qed.

Lemma main_body_same_file `{Environment} (args : Namespace) (k : string) :
  k ≠ path_join (output_dir args) "megablast_input.fasta" →
  k ≠ path_join (output_dir args) "megablast_results.txt" →
  k ≠ path_join (output_dir args) "final_report.txt" →
  preserves (same_file k) (main_body args).
Proof.
  intros Hsf Hrf Hreport. unfold main_body. cbv zeta.
  apply preserves_bind;
    [apply _|unfold check_args; frame; auto with frame|intros _].
  apply preserves_bind; [apply _|auto with frame|intros _].
  apply preserves_bind; [apply _|auto with frame|intros is_dir].
  apply preserves_bind; [apply _|frame; auto with frame|intros _].
  apply preserves_bind; [apply _| |intros _].
  - destruct (window args); [|auto with frame].
    unfold split_fasta_sequences. frame; auto with frame.
  - apply preserves_bind;
      [apply _|by apply run_megablast_same_file|intros lines].
    apply preserves_bind; [apply _|apply preserves_lift; apply _|].
    intros results. by apply generate_final_output_same_file.
Qed.

(** X18: what [main] touches.  Whatever the arguments and however the
    run ends, every file other than the three files of the output
    directory ([megablast_input.fasta], [megablast_results.txt],
    [final_report.txt]) is at the end what it was at the start, the input
    file included when it is none of these three; no directory is removed
    and none is made but the output directory. *)
Theorem main_footprint `{Environment} (args : Namespace) (w : world) :
  (∀ k : string,
     k ≠ path_join (output_dir args) "megablast_input.fasta" →
     k ≠ path_join (output_dir args) "megablast_results.txt" →
     k ≠ path_join (output_dir args) "final_report.txt" →
     files (snd (main args w)) !! k = files w !! k)
  ∧ dirs w ⊆ dirs (snd (main args w))
  ∧ dirs (snd (main args w)) ⊆ {[output_dir args]} ∪ dirs w.
Proof.
  unfold main.
  pose proof (main_body_dirs_within args w) as (Hsub & Hsup & _).
  pose proof (λ k H1 H2 H3, main_body_same_file args k H1 H2 H3 w) as Hfile.
  destruct (main_body args w) as [r w1]. unfold same_file in Hfile.
  simpl in Hfile, Hsub, Hsup. split; [|split].
  - intros k H1 H2 H3. rewrite main_handlers_files. by apply Hfile.
  - by destruct r as [[]|[]].
  - by destruct r as [[]|[]].
Qed.
